(** * AgentVerse: the round controller of [agentverse/environments/pipeline.py]

    A shallow embedding of [PipelineEnvironment] (its fields, [step],
    [role_assign], [decision_making], [execute], [evaluate], [is_done],
    [set_task_description] and [reset]) and the properties of its
    round protocol: dispatch between the two decision protocols, the
    acceptance rule, turn counting, termination and failure behaviour.

    Python objects are mutable and every method can raise: methods are
    computations in a state-and-exception monad over the controller
    object.  The four strategies (role assigner, decision maker, executor,
    evaluator) are external code: their answers are supplied per round by a
    record of functions, and every call made to them is recorded in a
    trace, so that "which protocol was invoked" is an observable fact. *)

From Stdlib Require Import ZArith String.
From stdpp Require Import base decidable countable gmap strings list.

Local Open Scope string_scope.
Local Open Scope list_scope.
Local Open Scope Z_scope.

(** ** Python values and exceptions *)

(** The values an evaluator score or an execution result ([Any]) can be.
    The annotation of [evaluate] is [Tuple[List[int], str]]: ratings are
    Python ints, hence [Z]. *)
#[warnings="-register-all"]
Inductive PyVal : Type :=
| PyNone
| PyBool (b : bool)
| PyInt (z : Z)
| PyStr (s : string)
| PyList (l : list PyVal)
| PyTuple (l : list PyVal).

(** Modelled from the spec: the enumeration [AGENT_TYPES] of
    [agentverse.utils] is imported by the controller but not part of the
    sources at hand.  Its members are the role tags the controller
    subscripts the role mapping with (the spec's ROLE_ASSIGNER, SOLVER,
    CRITIC, EVALUATOR and MANAGER). *)
Inductive AGENT_TYPES : Type :=
| ROLE_ASSIGNMENT
| SOLVER
| CRITIC
| EVALUATION
| MANAGER.

#[global] Instance AGENT_TYPES_eq_dec : EqDecision AGENT_TYPES.
Proof. solve_decision. Defined.

Definition AGENT_TYPES_value (t : AGENT_TYPES) : nat :=
  match t with
  | ROLE_ASSIGNMENT => 0
  | SOLVER => 1
  | CRITIC => 2
  | EVALUATION => 3
  | MANAGER => 4
  end%nat.

Definition AGENT_TYPES_of_value (n : nat) : AGENT_TYPES :=
  match n with
  | 0 => ROLE_ASSIGNMENT
  | 1 => SOLVER
  | 2 => CRITIC
  | 3 => EVALUATION
  | _ => MANAGER
  end%nat.

#[global] Instance AGENT_TYPES_countable : Countable AGENT_TYPES :=
  inj_countable' AGENT_TYPES_value AGENT_TYPES_of_value
    (λ t, match t with
          | ROLE_ASSIGNMENT | SOLVER | CRITIC | EVALUATION | MANAGER => eq_refl
          end).

(** The exceptions the controller itself can provoke, and those raised by
    a strategy ([Raised], by class name). *)
Inductive PyExc : Type :=
| KeyError (key : AGENT_TYPES)   (* [self.agents[key]], key absent *)
| TypeError                      (* [None[key]], [x + y], [s >= 8] *)
| IndexError                     (* [plan[0]] on an empty sequence *)
| Raised (cls : string).         (* raised inside a strategy *)

(** ** Actors and the role mapping *)

(** An actor: [agent_class] is what [str(type(agent))] evaluates to. *)
Record BaseAgent : Type := {
  agent_class : string;
  role_description : string
}.

(** A value of the role mapping,
    [Union[BaseAgent, List[BaseAgent]]]. *)
Inductive AgentsEntry : Type :=
| OneAgent (a : BaseAgent)
| AgentList (l : list BaseAgent).

(** What [decision_making] receives as its second positional argument:
    an entry of the role mapping or, on the second call site of [step], a
    string. *)
Inductive ManagerArg : Type :=
| ManagerEntry (e : AgentsEntry)
| ManagerStr (s : string).

Definition DynamicDecisionMaker_class : string :=
  "<class 'agentverse.environments.decision_maker.dynamic.DynamicDecisionMaker'>".

Definition ManagerAgent_class : string :=
  "<class 'agentverse.agents.pipeline.manager.ManagerAgent'>".

(** [str(type(manager))]. *)
Definition manager_type_str (m : ManagerArg) : string :=
  match m with
  | ManagerEntry (OneAgent a) => agent_class a
  | ManagerEntry (AgentList _) => "<class 'list'>"
  | ManagerStr _ => "<class 'str'>"
  end.

(** A plan candidate returned by the decision maker. *)
Record Message : Type := { content : string }.

(** ** The controller object *)

(** A strategy instance, as far as the controller looks at it:
    [component_class] is [str(type(component))]. *)
Record Component : Type := { component_class : string }.

Record PipelineEnvironment : Type := {
  agents : option (gmap AGENT_TYPES AgentsEntry);   (* default [None] *)
  role_assigner : Component;
  decision_maker : Component;
  executor : Component;
  evaluator : Component;
  task_description : string;
  cnt_turn : Z;
  max_turn : Z;
  success : bool
}.

Definition with_cnt_turn (n : Z) (self : PipelineEnvironment) :=
  {| agents := agents self; role_assigner := role_assigner self;
     decision_maker := decision_maker self; executor := executor self;
     evaluator := evaluator self; task_description := task_description self;
     cnt_turn := n; max_turn := max_turn self; success := success self |}.

Definition with_success (b : bool) (self : PipelineEnvironment) :=
  {| agents := agents self; role_assigner := role_assigner self;
     decision_maker := decision_maker self; executor := executor self;
     evaluator := evaluator self; task_description := task_description self;
     cnt_turn := cnt_turn self; max_turn := max_turn self; success := b |}.

Definition with_task_description (t : string) (self : PipelineEnvironment) :=
  {| agents := agents self; role_assigner := role_assigner self;
     decision_maker := decision_maker self; executor := executor self;
     evaluator := evaluator self; task_description := t;
     cnt_turn := cnt_turn self; max_turn := max_turn self;
     success := success self |}.

(** ** Strategy calls *)

(** One call from the controller into a strategy, with its keyword
    arguments.  [CallAstep] carries [Some manager] when the keyword
    [manager=] is passed (the manager-guided protocol) and [None] when it
    is not (the standard protocol). *)
Inductive Call : Type :=
| CallRoleAssigner (assigner : AgentsEntry) (group_members : list AgentsEntry)
                   (advice task : string)
| CallAstep (agts : list BaseAgent) (manager : option ManagerArg)
            (task previous_plan advice : string)
| CallExecutor (final_solution : string)
| CallEvaluator (agent : AgentsEntry) (result : PyVal) (task : string).

(** The answers of the four strategies during one round. *)
Record Collaborators : Type := {
  role_assigner_step :
    AgentsEntry → list AgentsEntry → string → string → PyExc + list BaseAgent;
  decision_maker_astep :
    list BaseAgent → option ManagerArg → string → string → string →
    PyExc + list Message;
  executor_step : string → PyExc + PyVal;
  evaluator_step : AgentsEntry → PyVal → string → PyExc + PyVal * string
}.

(** ** The monad of methods *)

(** A method run: the value returned or the exception raised, the object
    as the method leaves it, and the strategy calls it made, in order. *)
Definition M (A : Type) : Type :=
  PipelineEnvironment → (PyExc + A) * PipelineEnvironment * list Call.

Definition ret {A} (a : A) : M A := λ self, (inr a, self, []).

Definition raise {A} (e : PyExc) : M A := λ self, (inl e, self, []).

Definition bind {A B} (m : M A) (k : A → M B) : M B :=
  λ self,
    let '(r, self1, t) := m self in
    match r with
    | inl e => (inl e, self1, t)
    | inr a => let '(r', self2, t') := k a self1 in (r', self2, t ++ t')
    end.

#[global] Instance M_ret : MRet M := @ret.
#[global] Instance M_bind : MBind M := λ A B k m, bind m k.

(** [self.f] *)
Definition getattr {A} (f : PipelineEnvironment → A) : M A :=
  λ self, (inr (f self), self, []).

(** [self.f = v] *)
Definition setattr (upd : PipelineEnvironment → PipelineEnvironment) : M unit :=
  λ self, (inr (), upd self, []).

(** A value or exception computed without touching the object. *)
Definition lift {A} (r : PyExc + A) : M A := λ self, (r, self, []).

(** A call into a strategy: recorded, and answered by the strategy. *)
Definition call {A} (c : Call) (r : PyExc + A) : M A := λ self, (r, self, [c]).

(** [self.agents[key]] *)
Definition agents_getitem (key : AGENT_TYPES) : M AgentsEntry :=
  d ← getattr agents;
  match d with
  | None => raise TypeError
  | Some m =>
      match m !! key with
      | None => raise (KeyError key)
      | Some e => mret e
      end
  end.

(** ** The acceptance rule (lines 164-167 of [step]) *)

(** [s >= n] for an integer literal [n]: defined on ints (and on bools,
    a subclass of int); a [TypeError] on anything else. *)
Definition py_ge (s : PyVal) (n : Z) : PyExc + bool :=
  match s with
  | PyInt z => inr (z >=? n)
  | PyBool b => inr (Z.b2z b >=? n)
  | PyNone | PyStr _ | PyList _ | PyTuple _ => inl TypeError
  end.

(** [[f(x) for x in l]]: the whole list is computed, left to right, before
    anything looks at it; the first exception aborts it. *)
Fixpoint list_comprehension {A B} (f : A → PyExc + B) (l : list A)
  : PyExc + list B :=
  match l with
  | [] => inr []
  | x :: l' =>
      match f x with
      | inl e => inl e
      | inr y =>
          match list_comprehension f l' with
          | inl e => inl e
          | inr ys => inr (y :: ys)
          end
      end
  end.

(** Python's [all] on a list of bools. *)
Definition all (bs : list bool) : bool := forallb id bs.

Definition is_not_None (v : PyVal) : bool :=
  match v with PyNone => false | _ => true end.

Definition isinstance_bool (v : PyVal) : bool :=
  match v with PyBool _ => true | _ => false end.

Definition is_True (v : PyVal) : bool :=
  match v with PyBool true => true | _ => false end.

Definition isinstance_list_tuple (v : PyVal) : bool :=
  match v with PyList _ | PyTuple _ => true | _ => false end.

(** The elements [for s in score] ranges over. *)
Definition iter (v : PyVal) : list PyVal :=
  match v with PyList l | PyTuple l => l | _ => [] end.

(** The condition of the [if] at line 164, with the short-circuit
    evaluation of [and] and [or]. *)
Definition accept_condition (score : PyVal) : PyExc + bool :=
  if is_not_None score then
    if isinstance_bool score && is_True score then inr true
    else if isinstance_list_tuple score then
      match list_comprehension (λ s, py_ge s 8) (iter score) with
      | inl e => inl e
      | inr bs => inr (all bs)
      end
    else inr false
  else inr false.

(** ** The round log *)

(** The ["content"] of a log record.  [ContentEvaluation] stands for the
    f-string [Evaluation result: Score: {score}\nAdvice: {advice}], kept
    with its two interpolated values. *)
Inductive LogContent : Type :=
| ContentAgents (l : list BaseAgent)
| ContentStr (s : string)
| ContentAny (v : PyVal)
| ContentEvaluation (score : PyVal) (advice : string).

(** [{"module": m, "content": c}] and [{"agent": a, "content": c}]. *)
Inductive LogEntry : Type :=
| LogModule (module : string) (c : LogContent)
| LogAgent (agent : string) (c : LogContent).

(** ** The methods of [PipelineEnvironment] *)

Section Round.

(** The strategies' answers during the round at hand. *)
Variable c : Collaborators.

Definition role_assign (advice : string) : M (list BaseAgent) :=
  assigner ← agents_getitem ROLE_ASSIGNMENT;
  solver ← agents_getitem SOLVER;
  critics ← agents_getitem CRITIC;
  (* [[solver] + critics]: list concatenation needs a list on the right *)
  group_members ← match critics with
                   | AgentList l => mret (solver :: (OneAgent <$> l))
                   | OneAgent _ => raise TypeError
                   end;
  task ← getattr task_description;
  call (CallRoleAssigner assigner group_members advice task)
       (role_assigner_step c assigner group_members advice task).

Definition decision_making (agts : list BaseAgent) (manager : ManagerArg)
    (previous_plan : string) (advice : string) : M (list Message) :=
  if String.eqb (manager_type_str manager) ManagerAgent_class then
    task ← getattr task_description;
    call (CallAstep agts (Some manager) task previous_plan advice)
         (decision_maker_astep c agts (Some manager) task previous_plan advice)
  else
    task ← getattr task_description;
    call (CallAstep agts None task previous_plan advice)
         (decision_maker_astep c agts None task previous_plan advice).

Definition execute (final_solution : string) : M PyVal :=
  call (CallExecutor final_solution) (executor_step c final_solution).

Definition evaluate (result : PyVal) : M (PyVal * string) :=
  agent ← agents_getitem EVALUATION;
  task ← getattr task_description;
  '(score, advice) ← call (CallEvaluator agent result task)
                          (evaluator_step c agent result task);
  mret (score, advice).

(** One round.  The console output ([logger.info], [typewriter_log]) and
    the [description] string built only for it are left out: they touch
    neither the object nor the values returned.  Two things follow for the
    statements below.  The model follows a round as long as the console
    output returns; [typewriter_log(result, ...)] of line 149 is handed the
    executor's result as it is, so that statements which follow a round
    through the execution to its end are made for a result that is a string,
    or for rounds that returned or called the evaluator.  And [step] and
    [decision_making] are coroutines, which pass an exception on as it is
    unless it is a [StopIteration]: the model passes every exception on, so
    that where a strategy raises the properties below say that [step]
    raises, not what. *)
Definition step : M (PyVal * list LogEntry * bool) :=
  let advice := "No advice yet." in
  let previous_plan := "No solution yet." in
  let logs : list LogEntry := [] in
  (* expert recruitment *)
  agts ← role_assign advice;
  let logs := logs ++ [LogModule "Role Assigner" (ContentAgents agts)] in
  (* decision making *)
  dm ← getattr decision_maker;
  plan ← (if String.eqb (component_class dm) DynamicDecisionMaker_class then
            manager ← agents_getitem MANAGER;
            decision_making agts (ManagerEntry manager) previous_plan advice
          else
            (* three positional arguments: [previous_plan] lands in the
               parameter [manager], [advice] in [previous_plan], and
               [advice] takes its default *)
            decision_making agts (ManagerStr previous_plan) advice
                            "No advice yet.");
  (* [plan[0].content] *)
  plan ← match plan with
         | [] => raise IndexError
         | m :: _ => mret (content m)
         end;
  let logs := logs ++ [LogModule "Decision Maker" (ContentStr plan)] in
  (* execution *)
  result ← execute plan;
  let logs := logs ++ [LogModule "Executor" (ContentAny result)] in
  (* evaluation *)
  '(score, advice) ← evaluate result;
  let logs := logs ++ [LogAgent "evaluator" (ContentEvaluation score advice)] in
  accept ← lift (accept_condition score);
  logs ← (if accept : bool then
            setattr (with_success true);;
            mret (logs ++ [LogAgent "system" (ContentStr "Good score! Accept!")])
          else
            mret (logs ++ [LogAgent "system" (ContentStr "Bad score! Reject!")]));
  n ← getattr cnt_turn;
  setattr (with_cnt_turn (n + 1));;
  s ← getattr success;
  mret (result, logs, s).

End Round.

(** [self.cnt_turn >= self.max_turn or self.success] *)
Definition is_done : M bool :=
  n ← getattr cnt_turn;
  m ← getattr max_turn;
  if n >=? m then mret true else getattr success.

Definition set_task_description (task : string) : M unit :=
  setattr (with_task_description task).

Definition reset : M unit :=
  setattr (with_cnt_turn 0).

(** ** Sessions: sequences of public operations *)

Inductive Op : Type :=
| OpStep (c : Collaborators)
| OpReset
| OpIsDone
| OpSetTaskDescription (task : string).

(** The object after one operation, whether it returned or raised. *)
Definition run_op (o : Op) (self : PipelineEnvironment) : PipelineEnvironment :=
  match o with
  | OpStep c => (step c self).1.2
  | OpReset => (reset self).1.2
  | OpIsDone => (is_done self).1.2
  | OpSetTaskDescription t => (set_task_description t self).1.2
  end.

Definition run_ops (ops : list Op) (self : PipelineEnvironment)
  : PipelineEnvironment :=
  foldl (λ s o, run_op o s) self ops.

(** Projections of a method run. *)
Definition outcome {A} (r : (PyExc + A) * PipelineEnvironment * list Call)
  : PyExc + A := r.1.1.
Definition after {A} (r : (PyExc + A) * PipelineEnvironment * list Call)
  : PipelineEnvironment := r.1.2.
Definition calls {A} (r : (PyExc + A) * PipelineEnvironment * list Call)
  : list Call := r.2.

(** ** What a trace tells about a round *)

(** The manager-guided protocol: [astep] called with [manager=]. *)
Definition is_manager_guided (call : Call) : bool :=
  match call with
  | CallAstep _ (Some _) _ _ _ => true
  | _ => false
  end.

(** The standard protocol: [astep] called without [manager=]. *)
Definition is_standard (call : Call) : bool :=
  match call with
  | CallAstep _ None _ _ _ => true
  | _ => false
  end.

Definition manager_guided_invoked (t : list Call) : bool :=
  existsb is_manager_guided t.

Definition standard_invoked (t : list Call) : bool :=
  existsb is_standard t.

(** The role assigner was called during the run and returned [roster]. *)
Definition role_assigner_returned (c : Collaborators) (t : list Call)
    (roster : list BaseAgent) : Prop :=
  ∃ assigner group_members advice task,
    CallRoleAssigner assigner group_members advice task ∈ t ∧
    role_assigner_step c assigner group_members advice task = inr roster.

(** The decision maker was called during the run and returned [plans]. *)
Definition decision_maker_returned (c : Collaborators) (t : list Call)
    (plans : list Message) : Prop :=
  ∃ agts kw task previous_plan advice,
    CallAstep agts kw task previous_plan advice ∈ t ∧
    decision_maker_astep c agts kw task previous_plan advice = inr plans.

(** The evaluator was called during the run and returned
    [(score, advice)]. *)
Definition evaluator_returned (c : Collaborators) (t : list Call)
    (score : PyVal) (advice : string) : Prop :=
  ∃ agent result task,
    CallEvaluator agent result task ∈ t ∧
    evaluator_step c agent result task = inr (score, advice).

(** [self.agents.get(key)], for statements about the role mapping. *)
Definition role_mapping_get (self : PipelineEnvironment) (key : AGENT_TYPES)
  : option AgentsEntry :=
  match agents self with
  | None => None
  | Some m => m !! key
  end.

Definition is_role_assigner_call (call : Call) : bool :=
  match call with CallRoleAssigner _ _ _ _ => true | _ => false end.

(** ** The acceptance rule, in words *)

(** A rating that meets the threshold: a number, at least 8. *)
Definition meets_threshold (s : PyVal) : Prop :=
  ∃ z : Z, s = PyInt z ∧ 8 ≤ z.

(** The score is the boolean true, or a sequence of ratings that all meet
    the threshold. *)
Definition good_score (score : PyVal) : Prop :=
  score = PyBool true ∨
  ∃ l, (score = PyList l ∨ score = PyTuple l) ∧ Forall meets_threshold l.

(** ** The runs of a round

    A relational description of [step]: how far a round gets, what it
    returns or raises, how it leaves the object and which calls it made.
    [step_round_run] below shows that every run of [step] is one of
    these. *)

Definition accept_entry : LogEntry :=
  LogAgent "system" (ContentStr "Good score! Accept!").
Definition reject_entry : LogEntry :=
  LogAgent "system" (ContentStr "Bad score! Reject!").

(** The log of a round that reaches its verdict. *)
Definition round_logs (agts : list BaseAgent) (plan : string) (result : PyVal)
    (score : PyVal) (advice : string) (accept : bool) : list LogEntry :=
  [ LogModule "Role Assigner" (ContentAgents agts);
    LogModule "Decision Maker" (ContentStr plan);
    LogModule "Executor" (ContentAny result);
    LogAgent "evaluator" (ContentEvaluation score advice);
    if accept then accept_entry else reject_entry ].

Section Runs.

Variable c : Collaborators.
Variable self : PipelineEnvironment.

(** The class test of line 130. *)
Definition is_dynamic : bool :=
  String.eqb (component_class (decision_maker self)) DynamicDecisionMaker_class.

(** The decision-making stage (lines 130-134) for the roster [agts]. *)
Inductive decision_run (agts : list BaseAgent)
  : PyExc + list Message → list Call → Prop :=
| decision_not_dynamic r t :
    is_dynamic = false →
    decision_making c agts (ManagerStr "No solution yet.")
                    "No advice yet." "No advice yet." self = (r, self, t) →
    decision_run agts r t
| decision_dynamic manager r t :
    is_dynamic = true →
    agents_getitem MANAGER self = (inr manager, self, []) →
    decision_making c agts (ManagerEntry manager)
                    "No solution yet." "No advice yet." self = (r, self, t) →
    decision_run agts r t
| decision_no_manager e :
    is_dynamic = true →
    agents_getitem MANAGER self = (inl e, self, []) →
    decision_run agts (inl e) [].

Inductive round_run
  : PyExc + PyVal * list LogEntry * bool → PipelineEnvironment → list Call → Prop :=
| round_role_assign_raises e t1 :
    role_assign c "No advice yet." self = (inl e, self, t1) →
    round_run (inl e) self t1
| round_decision_raises agts t1 e t2 :
    role_assign c "No advice yet." self = (inr agts, self, t1) →
    decision_run agts (inl e) t2 →
    round_run (inl e) self (t1 ++ t2)
| round_empty_plan agts t1 t2 :
    role_assign c "No advice yet." self = (inr agts, self, t1) →
    decision_run agts (inr []) t2 →
    round_run (inl IndexError) self (t1 ++ t2)
| round_execute_raises agts t1 m ms t2 e :
    role_assign c "No advice yet." self = (inr agts, self, t1) →
    decision_run agts (inr (m :: ms)) t2 →
    executor_step c (content m) = inl e →
    round_run (inl e) self (t1 ++ t2 ++ [CallExecutor (content m)])
| round_evaluate_raises agts t1 m ms t2 result e t3 :
    role_assign c "No advice yet." self = (inr agts, self, t1) →
    decision_run agts (inr (m :: ms)) t2 →
    executor_step c (content m) = inr result →
    evaluate c result self = (inl e, self, t3) →
    round_run (inl e) self (t1 ++ t2 ++ [CallExecutor (content m)] ++ t3)
| round_score_raises agts t1 m ms t2 result score advice t3 e :
    role_assign c "No advice yet." self = (inr agts, self, t1) →
    decision_run agts (inr (m :: ms)) t2 →
    executor_step c (content m) = inr result →
    evaluate c result self = (inr (score, advice), self, t3) →
    accept_condition score = inl e →
    round_run (inl e) self (t1 ++ t2 ++ [CallExecutor (content m)] ++ t3)
| round_verdict agts t1 m ms t2 result score advice t3 accept :
    role_assign c "No advice yet." self = (inr agts, self, t1) →
    decision_run agts (inr (m :: ms)) t2 →
    executor_step c (content m) = inr result →
    evaluate c result self = (inr (score, advice), self, t3) →
    accept_condition score = inr accept →
    round_run
      (inr (result,
            round_logs agts (content m) result score advice accept,
            if accept then true else success self))
      (with_cnt_turn (cnt_turn self + 1)
                     (if accept then with_success true self else self))
      (t1 ++ t2 ++ [CallExecutor (content m)] ++ t3).

End Runs.

(** ** Concrete sessions, used to run the model *)

Module Demo.

Definition agent (cls : string) : BaseAgent :=
  {| agent_class := cls; role_description := "" |}.

Definition assigner_agent : BaseAgent :=
  agent "<class 'agentverse.agents.pipeline.role_assigner.RoleAssignerAgent'>".
Definition solver_agent : BaseAgent :=
  agent "<class 'agentverse.agents.pipeline.solver.SolverAgent'>".
Definition critic_agent : BaseAgent :=
  agent "<class 'agentverse.agents.pipeline.critic.CriticAgent'>".
Definition evaluator_agent : BaseAgent :=
  agent "<class 'agentverse.agents.pipeline.evaluator.EvaluatorAgent'>".
Definition manager_agent : BaseAgent := agent ManagerAgent_class.

(** A role mapping without a MANAGER entry. *)
Definition roles : gmap AGENT_TYPES AgentsEntry :=
  <[ROLE_ASSIGNMENT := OneAgent assigner_agent]>
    (<[SOLVER := OneAgent solver_agent]>
       (<[CRITIC := AgentList [critic_agent]]>
          (<[EVALUATION := OneAgent evaluator_agent]> ∅))).

(** The same with a MANAGER entry. *)
Definition roles_with (manager : AgentsEntry) : gmap AGENT_TYPES AgentsEntry :=
  <[MANAGER := manager]> roles.

Definition vertical : Component :=
  {| component_class :=
       "<class 'agentverse.environments.decision_maker.vertical.VerticalDecisionMaker'>" |}.
Definition dynamic : Component :=
  {| component_class := DynamicDecisionMaker_class |}.

Definition env (dm : Component) (ags : option (gmap AGENT_TYPES AgentsEntry))
    (turn : Z) (ok : bool) : PipelineEnvironment :=
  {| agents := ags;
     role_assigner := {| component_class := "<class 'agentverse.environments.role_assigner.role_description.DescriptionAssigner'>" |};
     decision_maker := dm;
     executor := {| component_class := "<class 'agentverse.environments.executor.base.NoneExecutor'>" |};
     evaluator := {| component_class := "<class 'agentverse.environments.evaluator.basic.BasicEvaluator'>" |};
     task_description := "task";
     cnt_turn := turn; max_turn := 10; success := ok |}.

(** Strategies that answer the same whatever they are asked: the roster,
    the plan candidates and the evaluation are given. *)
Definition collaborators (roster : list BaseAgent) (plans : list Message)
    (score : PyVal) : Collaborators :=
  {| role_assigner_step := λ _ _ _ _, inr roster;
     decision_maker_astep := λ _ _ _ _ _, inr plans;
     executor_step := λ plan, inr (PyStr plan);
     evaluator_step := λ _ _ _, inr (score, "advice") |}.

Definition plan_a : Message := {| content := "plan A" |}.

End Demo.

(** ** The stages of a round, call by call

    [staged c self r s t]: the round ran the stages it ran with the
    arguments and the answers listed, returned or raised [r], left the
    object [s] and made the calls [t].  Each constructor is one way a round
    can end. *)

Section Staged.

Variable c : Collaborators.
Variable self : PipelineEnvironment.

(** The role assigner was asked and returned [roster]. *)
Definition assigned (assigner : AgentsEntry) (group_members : list AgentsEntry)
    (roster : list BaseAgent) : Prop :=
  role_assign c "No advice yet." self =
    (inr roster, self,
     [CallRoleAssigner assigner group_members "No advice yet."
                       (task_description self)]) ∧
  role_assigner_step c assigner group_members "No advice yet."
                     (task_description self) = inr roster.

(** The decision maker was asked about [roster], with or without the
    keyword [manager=], and answered [ans]. *)
Definition decided (roster : list BaseAgent) (kw : option ManagerArg)
    (previous_plan : string) (ans : PyExc + list Message) : Prop :=
  ans = decision_maker_astep c roster kw (task_description self)
                             previous_plan "No advice yet." ∧
  ((is_dynamic self = false ∧ kw = None ∧ previous_plan = "No advice yet.") ∨
   (∃ manager,
       is_dynamic self = true ∧
       role_mapping_get self MANAGER = Some manager ∧
       previous_plan = "No solution yet." ∧
       kw = if String.eqb (manager_type_str (ManagerEntry manager))
                          ManagerAgent_class
            then Some (ManagerEntry manager) else None)).

(** The evaluator was asked about [result] and answered [ans]. *)
Definition evaluated (agent : AgentsEntry) (result : PyVal)
    (ans : PyExc + PyVal * string) : Prop :=
  role_mapping_get self EVALUATION = Some agent ∧
  ans = evaluator_step c agent result (task_description self).

Inductive staged
  : PyExc + PyVal * list LogEntry * bool → PipelineEnvironment → list Call → Prop :=
| staged_role_mapping e :
    role_assign c "No advice yet." self = (inl e, self, []) →
    staged (inl e) self []
| staged_role_assigner_raises assigner group_members e :
    role_assign c "No advice yet." self =
      (inl e, self,
       [CallRoleAssigner assigner group_members "No advice yet."
                         (task_description self)]) →
    role_assigner_step c assigner group_members "No advice yet."
                       (task_description self) = inl e →
    staged (inl e) self
      [CallRoleAssigner assigner group_members "No advice yet."
                        (task_description self)]
| staged_no_manager assigner group_members roster :
    assigned assigner group_members roster →
    is_dynamic self = true →
    role_mapping_get self MANAGER = None →
    staged (inl (KeyError MANAGER)) self
      [CallRoleAssigner assigner group_members "No advice yet."
                        (task_description self)]
| staged_decision_maker_raises assigner group_members roster kw previous_plan e :
    assigned assigner group_members roster →
    decided roster kw previous_plan (inl e) →
    staged (inl e) self
      [CallRoleAssigner assigner group_members "No advice yet."
                        (task_description self);
       CallAstep roster kw (task_description self) previous_plan "No advice yet."]
| staged_no_plan assigner group_members roster kw previous_plan :
    assigned assigner group_members roster →
    decided roster kw previous_plan (inr []) →
    staged (inl IndexError) self
      [CallRoleAssigner assigner group_members "No advice yet."
                        (task_description self);
       CallAstep roster kw (task_description self) previous_plan "No advice yet."]
| staged_executor_raises assigner group_members roster kw previous_plan m ms e :
    assigned assigner group_members roster →
    decided roster kw previous_plan (inr (m :: ms)) →
    executor_step c (content m) = inl e →
    staged (inl e) self
      [CallRoleAssigner assigner group_members "No advice yet."
                        (task_description self);
       CallAstep roster kw (task_description self) previous_plan "No advice yet.";
       CallExecutor (content m)]
| staged_no_evaluator assigner group_members roster kw previous_plan m ms result :
    assigned assigner group_members roster →
    decided roster kw previous_plan (inr (m :: ms)) →
    executor_step c (content m) = inr result →
    role_mapping_get self EVALUATION = None →
    staged (inl (KeyError EVALUATION)) self
      [CallRoleAssigner assigner group_members "No advice yet."
                        (task_description self);
       CallAstep roster kw (task_description self) previous_plan "No advice yet.";
       CallExecutor (content m)]
| staged_evaluator_raises assigner group_members roster kw previous_plan m ms
                          result agent e :
    assigned assigner group_members roster →
    decided roster kw previous_plan (inr (m :: ms)) →
    executor_step c (content m) = inr result →
    evaluated agent result (inl e) →
    staged (inl e) self
      [CallRoleAssigner assigner group_members "No advice yet."
                        (task_description self);
       CallAstep roster kw (task_description self) previous_plan "No advice yet.";
       CallExecutor (content m);
       CallEvaluator agent result (task_description self)]
| staged_score_raises assigner group_members roster kw previous_plan m ms
                      result agent score advice e :
    assigned assigner group_members roster →
    decided roster kw previous_plan (inr (m :: ms)) →
    executor_step c (content m) = inr result →
    evaluated agent result (inr (score, advice)) →
    accept_condition score = inl e →
    staged (inl e) self
      [CallRoleAssigner assigner group_members "No advice yet."
                        (task_description self);
       CallAstep roster kw (task_description self) previous_plan "No advice yet.";
       CallExecutor (content m);
       CallEvaluator agent result (task_description self)]
| staged_verdict assigner group_members roster kw previous_plan m ms
                 result agent score advice accept :
    assigned assigner group_members roster →
    decided roster kw previous_plan (inr (m :: ms)) →
    executor_step c (content m) = inr result →
    evaluated agent result (inr (score, advice)) →
    accept_condition score = inr accept →
    staged
      (inr (result,
            round_logs roster (content m) result score advice accept,
            if accept then true else success self))
      (with_cnt_turn (cnt_turn self + 1)
                     (if accept then with_success true self else self))
      [CallRoleAssigner assigner group_members "No advice yet."
                        (task_description self);
       CallAstep roster kw (task_description self) previous_plan "No advice yet.";
       CallExecutor (content m);
       CallEvaluator agent result (task_description self)].

End Staged.

(** ** Vocabulary for statements about calls and sessions *)

(** The stage a call belongs to: 0 role assignment, 1 decision making,
    2 execution, 3 evaluation. *)
Definition stage_of (call : Call) : nat :=
  match call with
  | CallRoleAssigner _ _ _ _ => 0
  | CallAstep _ _ _ _ _ => 1
  | CallExecutor _ => 2
  | CallEvaluator _ _ _ => 3
  end%nat.

Definition is_executor_call (call : Call) : bool :=
  match call with CallExecutor _ => true | _ => false end.


(** The advice and the previous plan a call carries are the constants
    [step] starts every round with. *)
Definition carries_no_feedback (self : PipelineEnvironment) (call : Call) : Prop :=
  match call with
  | CallRoleAssigner _ _ advice _ => advice = "No advice yet."
  | CallAstep _ _ _ previous_plan advice =>
      advice = "No advice yet." ∧
      previous_plan = if is_dynamic self then "No solution yet."
                      else "No advice yet."
  | CallExecutor _ | CallEvaluator _ _ _ => True
  end.

(** The task description a call carries, if it carries one. *)
Definition call_task (call : Call) : option string :=
  match call with
  | CallRoleAssigner _ _ _ task => Some task
  | CallAstep _ _ task _ _ => Some task
  | CallExecutor _ => None
  | CallEvaluator _ _ task => Some task
  end.

(** Values [s >= 8] is defined on. *)
Definition is_number (s : PyVal) : bool :=
  match s with PyInt _ | PyBool _ => true | _ => false end.

(** The text an operation assigns to [task_description], if any. *)
Definition op_task (o : Op) : option string :=
  match o with OpSetTaskDescription t => Some t | _ => None end.

Definition is_reset (o : Op) : bool :=
  match o with OpReset => true | _ => false end.

Definition is_step (o : Op) : bool :=
  match o with OpStep _ => true | _ => false end.

Module Demo2.

(** A role mapping without an EVALUATION entry. *)
Definition roles_without_evaluator : gmap AGENT_TYPES AgentsEntry :=
  delete EVALUATION Demo.roles.

(** An executor that raises. *)
Definition failing_executor : Collaborators :=
  {| role_assigner_step := λ _ _ _ _, inr [Demo.solver_agent];
     decision_maker_astep := λ _ _ _ _ _, inr [Demo.plan_a];
     executor_step := λ _, inl (Raised "RuntimeError");
     evaluator_step := λ _ _ _, inr (PyBool true, "advice") |}.

End Demo2.

(** ** The session driver of [agentverse/startup_company.py]

    [StartupCompany] drives an environment object through its methods
    [reset], [is_done], [step] and [report_metrics].  The class of the
    environment is not among the sources at hand: the driver is modelled
    over any environment with these four methods, each one a function from
    the state of the objects of the session to what it returns or raises and
    the state it leaves.  That state, [E], is the state of the environment
    and of the agents, which the environment may hold as well as the
    company. *)

Module StartupCompany.

(** [env_step] is [asyncio.run(self.environment.step())], as the driver
    calls it. *)
Class Environment (E R : Type) : Type := {
  env_reset : E → (PyExc + unit) * E;
  env_is_done : E → (PyExc + bool) * E;
  env_step : E → (PyExc + R) * E;
  env_report_metrics : E → (PyExc + unit) * E
}.

(** The agents of the company, as far as the driver uses them: [reset].
    [A] is the identity of an agent object and its state is part of [E]:
    an agent that stands twice in the list of the company is one object,
    reset twice. *)
Class Resettable (E A : Type) : Type :=
  agent_reset : A → E → (PyExc + unit) * E.

(** The method calls the driver makes, in order.  [CallAgentReset i] is
    the call [agent.reset()] on the agent at index [i] of [self.agents]. *)
Inductive DriverCall : Type :=
| CallReset
| CallIsDone
| CallStep
| CallReportMetrics
| CallAgentReset (i : nat).

(** What the driver gets from a call, as far as it looks at it: an
    exception, a return, or the boolean [is_done] returns. *)
Inductive Answer : Type :=
| Raises (e : PyExc)
| Returns
| ReturnsBool (b : bool).

Section Company.

Context {E R A : Type} `{!Environment E R} `{!Resettable E A}.

Record StartupCompany : Type := {
  agents : list A;
  environment : E
}.

Definition with_environment (env : E) (self : StartupCompany) : StartupCompany :=
  {| agents := agents self; environment := env |}.

(** A run of a method of the company: what it returns or raises, the
    company as it leaves it, the calls it made. *)
Definition Run (B : Type) : Type := (PyExc + B) * StartupCompany * list DriverCall.

(** The loop [while not self.environment.is_done(): ...step()].  [fuel]
    bounds the number of times the condition is evaluated; [None] says the
    loop was still running when the fuel ran out. *)
Fixpoint run_loop (fuel : nat) (self : StartupCompany) : option (Run unit) :=
  match fuel with
  | O => None
  | S fuel' =>
      match env_is_done (environment self) with
      | (inl e, env) => Some (inl e, with_environment env self, [CallIsDone])
      | (inr true, env) => Some (inr (), with_environment env self, [CallIsDone])
      | (inr false, env) =>
          match env_step env with
          | (inl e, env') =>
              Some (inl e, with_environment env' self, [CallIsDone; CallStep])
          | (inr _, env') =>
              match run_loop fuel' (with_environment env' self) with
              | None => None
              | Some (r, self', t) => Some (r, self', CallIsDone :: CallStep :: t)
              end
          end
      end
  end.

Definition run (fuel : nat) (self : StartupCompany) : option (Run unit) :=
  match env_reset (environment self) with
  | (inl e, env) => Some (inl e, with_environment env self, [CallReset])
  | (inr _, env) =>
      match run_loop fuel (with_environment env self) with
      | None => None
      | Some (inl e, self', t) => Some (inl e, self', CallReset :: t)
      | Some (inr _, self', t) =>
          match env_report_metrics (environment self') with
          | (r, env') =>
              Some (r, with_environment env' self',
                    CallReset :: t ++ [CallReportMetrics])
          end
      end
  end.

(** [for agent in self.agents: agent.reset()], from the agent at index
    [i] on: the state as the loop leaves it, and the calls made. *)
Fixpoint reset_agents (i : nat) (l : list A) (env : E)
  : (PyExc + unit) * E * list DriverCall :=
  match l with
  | [] => (inr (), env, [])
  | a :: l' =>
      match agent_reset a env with
      | (inl e, env') => (inl e, env', [CallAgentReset i])
      | (inr _, env') =>
          match reset_agents (S i) l' env' with
          | (r, env'', t) => (r, env'', CallAgentReset i :: t)
          end
      end
  end.

Definition reset (self : StartupCompany) : Run unit :=
  match env_reset (environment self) with
  | (inl e, env) => (inl e, with_environment env self, [CallReset])
  | (inr _, env) =>
      match reset_agents 0 (agents self) env with
      | (r, env', t) => (r, with_environment env' self, CallReset :: t)
      end
  end.

(** [next], without arguments. *)
Definition next (self : StartupCompany) : Run R :=
  match env_step (environment self) with
  | (r, env) => (r, with_environment env self, [CallStep])
  end.

(** *** Replaying a trace

    The methods being functions of the state, the calls of a trace can be
    made again, in their order, from the state the run started in: this
    tells what each call of the run was answered. *)

Definition answer_of {B} (r : PyExc + B) (returned : B → Answer) : Answer :=
  match r with
  | inl e => Raises e
  | inr x => returned x
  end.

Definition answer (ags : list A) (call : DriverCall) (env : E) : Answer * E :=
  match call with
  | CallReset => (answer_of (env_reset env).1 (λ _, Returns), (env_reset env).2)
  | CallIsDone => (answer_of (env_is_done env).1 ReturnsBool, (env_is_done env).2)
  | CallStep => (answer_of (env_step env).1 (λ _, Returns), (env_step env).2)
  | CallReportMetrics =>
      (answer_of (env_report_metrics env).1 (λ _, Returns),
       (env_report_metrics env).2)
  | CallAgentReset i =>
      match ags !! i with
      | Some a => (answer_of (agent_reset a env).1 (λ _, Returns),
                   (agent_reset a env).2)
      | None => (Returns, env)
      end
  end.

Fixpoint answers (ags : list A) (t : list DriverCall) (env : E)
  : list Answer * E :=
  match t with
  | [] => ([], env)
  | call :: t' =>
      let '(a, env') := answer ags call env in
      let '(l, env'') := answers ags t' env' in
      (a :: l, env'')
  end.

(** [k] passes through the loop of [run], and what they are answered. *)
Fixpoint rounds (k : nat) : list DriverCall :=
  match k with
  | O => []
  | S k' => CallIsDone :: CallStep :: rounds k'
  end.

Fixpoint round_answers (k : nat) : list Answer :=
  match k with
  | O => []
  | S k' => ReturnsBool false :: Returns :: round_answers k'
  end.

(** A whole session of [run] with [k] rounds, and what its calls are
    answered when none raises. *)
Definition session (k : nat) : list DriverCall :=
  CallReset :: rounds k ++ [CallIsDone; CallReportMetrics].

Definition session_answers (k : nat) : list Answer :=
  Returns :: round_answers k ++ [ReturnsBool true; Returns].

(** The calls of a whole [reset] of a company with [n] agents. *)
Definition reset_calls (n : nat) : list DriverCall :=
  CallReset :: (CallAgentReset <$> seq 0 n).

End Company.

End StartupCompany.

(** The round controller as the environment of a company.  The strategies
    answer the [n]-th round of the session as [cs n] says.
    [PipelineEnvironment] defines no [report_metrics]: what calling it does
    is left open, as [report]. *)
Definition pipeline_environment (cs : nat → Collaborators)
    (report : PipelineEnvironment → (PyExc + unit) * PipelineEnvironment)
  : StartupCompany.Environment (PipelineEnvironment * nat)
                               (PyVal * list LogEntry * bool) :=
  {| StartupCompany.env_reset :=
       λ '(self, n), (outcome (reset self), (after (reset self), n));
     StartupCompany.env_is_done :=
       λ '(self, n), (outcome (is_done self), (after (is_done self), n));
     StartupCompany.env_step :=
       λ '(self, n), (outcome (step (cs n) self), (after (step (cs n) self), S n));
     StartupCompany.env_report_metrics :=
       λ '(self, n), ((report self).1, ((report self).2, n)) |}.

Definition is_CallStep (call : StartupCompany.DriverCall) : bool :=
  match call with StartupCompany.CallStep => true | _ => false end.

(** A company made of the round controller and no agents. *)
Definition pipeline_company (self : PipelineEnvironment) (n : nat)
  : @StartupCompany.StartupCompany (PipelineEnvironment * nat) BaseAgent :=
  {| StartupCompany.agents := []; StartupCompany.environment := (self, n) |}.

(** The agents of such a company: there is none to reset. *)
Definition no_agents : StartupCompany.Resettable (PipelineEnvironment * nat) BaseAgent :=
  λ _ env, (inr (), env).

(** ** Construction: [PipelineEnvironment.__init__]

    The constructor receives keyword arguments.  Four of them,
    [role_assigner], [decision_maker], [executor] and [evaluator], are
    configuration dicts of the caller: dict objects that the constructor
    writes to, so that they are modelled as references into a store.  The
    registries and the initialiser of pydantic's [BaseModel] are external:
    their answers are given. *)

Module Construction.

(** A dict with string keys. *)
Abbreviation Config := (gmap string PyVal).

(** The dict objects of the caller, by address. *)
Abbreviation Store := (nat → Config).

(** [h] with the dict at address [l] replaced by [d]. *)
Definition store_set (l : nat) (d : Config) (h : Store) : Store :=
  λ l', if decide (l' = l) then d else h l'.

(** A keyword argument: a reference to a dict object, or another value. *)
Inductive Value : Type :=
| VRef (l : nat)
| VVal (v : PyVal).

Inductive Registry : Type :=
| role_assigner_registry
| decision_maker_registry
| executor_registry
| evaluator_registry.

Inductive Exc : Type :=
| KeyError (key : string)     (* [config.pop("type")], key absent *)
| AttributeError              (* [config.pop] on a value without [pop] *)
| TypeError                   (* [list.pop("type")] *)
| Raised (e : PyExc).         (* raised by a registry or by [BaseModel] *)

(** The calls the constructor makes. *)
Inductive InitCall : Type :=
| CallBuild (registry : Registry) (component_type : PyVal) (config : Config)
| CallBaseModel (role_assigner decision_maker executor evaluator : Component)
                (kwargs : gmap string Value).

(** What [kwargs.pop(key, default)] returns: the caller's value, or the
    dict literal written in the constructor. *)
Inductive Popped : Type :=
| Given (v : Value)
| Literal (d : Config).

(** A run of the constructor or of a part of it. *)
Definition B (T : Type) : Type :=
  Store → (Exc + T) * Store * list InitCall.

Definition B_ret {T} (x : T) : B T := λ h, (inr x, h, []).

Definition B_bind {T U} (m : B T) (k : T → B U) : B U :=
  λ h,
    let '(r, h1, t) := m h in
    match r with
    | inl e => (inl e, h1, t)
    | inr x => let '(r', h2, t') := k x h1 in (r', h2, t ++ t')
    end.

#[global] Instance B_mret : MRet B := @B_ret.
#[global] Instance B_mbind : MBind B := λ T U k m, B_bind m k.

Section Init.

(** [registry.build(component_type, **config)] *)
Variable registry_build : Registry → PyVal → Config → PyExc + Component.

(** [super().__init__(role_assigner=..., decision_maker=..., executor=...,
    evaluator=..., **kwargs)] *)
Variable BaseModel_init :
  Component → Component → Component → Component → gmap string Value →
  PyExc + PipelineEnvironment.

(** [kwargs.pop(key, {"type": default_type})] *)
Definition kwargs_pop (key default_type : string) (kwargs : gmap string Value)
  : Popped * gmap string Value :=
  match kwargs !! key with
  | Some v => (Given v, delete key kwargs)
  | None => (Literal {[ "type" := PyStr default_type ]}, kwargs)
  end.

(** [registry.build(component_type, **config)], recorded. *)
Definition build (registry : Registry) (component_type : PyVal) (config : Config)
  : B Component :=
  λ h, (match registry_build registry component_type config with
        | inl e => inl (Raised e)
        | inr component => inr component
        end, h, [CallBuild registry component_type config]).

Definition build_components (config : Popped) (registry : Registry) : B Component :=
  match config with
  | Given (VVal (PyList _)) => λ h, (inl TypeError, h, [])
  | Given (VVal _) => λ h, (inl AttributeError, h, [])
  | Given (VRef l) =>
      λ h,
        (* [config.pop("type")] writes to the caller's dict *)
        match h l !! "type" with
        | None => (inl (KeyError "type"), h, [])
        | Some component_type =>
            build registry component_type (delete "type" (h l))
                  (store_set l (delete "type" (h l)) h)
        end
  | Literal d =>
      match d !! "type" with
      | None => λ h, (inl (KeyError "type"), h, [])
      | Some component_type => build registry component_type (delete "type" d)
      end
  end.

(** [super().__init__(...)], recorded. *)
Definition super_init (role_assigner decision_maker executor evaluator : Component)
    (kwargs : gmap string Value) : B PipelineEnvironment :=
  λ h, (match BaseModel_init role_assigner decision_maker executor evaluator
                             kwargs with
        | inl e => inl (Raised e)
        | inr self => inr self
        end, h,
        [CallBaseModel role_assigner decision_maker executor evaluator kwargs]).

Definition __init__ (kwargs : gmap string Value) : B PipelineEnvironment :=
  let '(config, kwargs) := kwargs_pop "role_assigner" "role_description" kwargs in
  role_assigner ← build_components config role_assigner_registry;
  let '(config, kwargs) := kwargs_pop "decision_maker" "vertical" kwargs in
  decision_maker ← build_components config decision_maker_registry;
  let '(config, kwargs) := kwargs_pop "executor" "none" kwargs in
  executor ← build_components config executor_registry;
  let '(config, kwargs) := kwargs_pop "evaluator" "basic" kwargs in
  evaluator ← build_components config evaluator_registry;
  super_init role_assigner decision_maker executor evaluator kwargs.

(** A registry's answer, as the constructor passes it on. *)
Definition lift_build (r : PyExc + Component) : Exc + Component :=
  match r with inl e => inl (Raised e) | inr x => inr x end.

(** The four ways [build_components(kwargs.pop(key, default), registry)]
    can go, from the keywords [kwargs] and the store [h]. *)
Inductive stage (key default_type : string) (registry : Registry)
    (kwargs : gmap string Value) (h : Store)
  : Exc + Component → Store → list InitCall → Prop :=
| stage_default :
    kwargs !! key = None →
    stage key default_type registry kwargs h
          (lift_build (registry_build registry (PyStr default_type) ∅)) h
          [CallBuild registry (PyStr default_type) ∅]
| stage_given l component_type :
    kwargs !! key = Some (VRef l) →
    h l !! "type" = Some component_type →
    stage key default_type registry kwargs h
          (lift_build (registry_build registry component_type
                                      (delete "type" (h l))))
          (store_set l (delete "type" (h l)) h)
          [CallBuild registry component_type (delete "type" (h l))]
| stage_no_type l :
    kwargs !! key = Some (VRef l) →
    h l !! "type" = None →
    stage key default_type registry kwargs h (inl (KeyError "type")) h []
| stage_not_a_dict v :
    kwargs !! key = Some (VVal v) →
    stage key default_type registry kwargs h
          (inl (match v with PyList _ => TypeError | _ => AttributeError end))
          h [].

(** The runs of the constructor: it stops at the first stage that raises,
    and hands the four components and the remaining keywords to
    [BaseModel] when none does. *)
Inductive init_run (kwargs : gmap string Value) (h : Store)
  : Exc + PipelineEnvironment → Store → list InitCall → Prop :=
| init_stops_at_role_assigner e h1 t1 :
    stage "role_assigner" "role_description" role_assigner_registry
          kwargs h (inl e) h1 t1 →
    init_run kwargs h (inl e) h1 t1
| init_stops_at_decision_maker x1 h1 t1 e h2 t2 :
    stage "role_assigner" "role_description" role_assigner_registry
          kwargs h (inr x1) h1 t1 →
    stage "decision_maker" "vertical" decision_maker_registry
          (delete "role_assigner" kwargs) h1 (inl e) h2 t2 →
    init_run kwargs h (inl e) h2 (t1 ++ t2)
| init_stops_at_executor x1 h1 t1 x2 h2 t2 e h3 t3 :
    stage "role_assigner" "role_description" role_assigner_registry
          kwargs h (inr x1) h1 t1 →
    stage "decision_maker" "vertical" decision_maker_registry
          (delete "role_assigner" kwargs) h1 (inr x2) h2 t2 →
    stage "executor" "none" executor_registry
          (delete "decision_maker" (delete "role_assigner" kwargs))
          h2 (inl e) h3 t3 →
    init_run kwargs h (inl e) h3 (t1 ++ t2 ++ t3)
| init_stops_at_evaluator x1 h1 t1 x2 h2 t2 x3 h3 t3 e h4 t4 :
    stage "role_assigner" "role_description" role_assigner_registry
          kwargs h (inr x1) h1 t1 →
    stage "decision_maker" "vertical" decision_maker_registry
          (delete "role_assigner" kwargs) h1 (inr x2) h2 t2 →
    stage "executor" "none" executor_registry
          (delete "decision_maker" (delete "role_assigner" kwargs))
          h2 (inr x3) h3 t3 →
    stage "evaluator" "basic" evaluator_registry
          (delete "executor"
             (delete "decision_maker" (delete "role_assigner" kwargs)))
          h3 (inl e) h4 t4 →
    init_run kwargs h (inl e) h4 (t1 ++ t2 ++ t3 ++ t4)
| init_reaches_BaseModel x1 h1 t1 x2 h2 t2 x3 h3 t3 x4 h4 t4 :
    stage "role_assigner" "role_description" role_assigner_registry
          kwargs h (inr x1) h1 t1 →
    stage "decision_maker" "vertical" decision_maker_registry
          (delete "role_assigner" kwargs) h1 (inr x2) h2 t2 →
    stage "executor" "none" executor_registry
          (delete "decision_maker" (delete "role_assigner" kwargs))
          h2 (inr x3) h3 t3 →
    stage "evaluator" "basic" evaluator_registry
          (delete "executor"
             (delete "decision_maker" (delete "role_assigner" kwargs)))
          h3 (inr x4) h4 t4 →
    init_run kwargs h
      (match BaseModel_init x1 x2 x3 x4
               (delete "evaluator"
                  (delete "executor"
                     (delete "decision_maker"
                        (delete "role_assigner" kwargs)))) with
       | inl e => inl (Raised e)
       | inr self => inr self
       end)
      h4
      (t1 ++ t2 ++ t3 ++ t4 ++
       [CallBaseModel x1 x2 x3 x4
          (delete "evaluator"
             (delete "executor"
                (delete "decision_maker" (delete "role_assigner" kwargs))))]).

End Init.

(** The keys the constructor pops. *)
Definition strategy_keys : list string :=
  ["role_assigner"; "decision_maker"; "executor"; "evaluator"].

(** Projections of a run. *)
Definition result_of {T} (r : (Exc + T) * Store * list InitCall) : Exc + T := r.1.1.
Definition store_of {T} (r : (Exc + T) * Store * list InitCall) : Store := r.1.2.
Definition calls_of {T} (r : (Exc + T) * Store * list InitCall) : list InitCall := r.2.

(** The stages of the constructor, in the order of the source: the keyword
    popped, the variant built when the keyword is absent, and the registry
    asked. *)
Definition stages : list (string * string * Registry) :=
  [("role_assigner", "role_description", role_assigner_registry);
   ("decision_maker", "vertical", decision_maker_registry);
   ("executor", "none", executor_registry);
   ("evaluator", "basic", evaluator_registry)].

(** What the caller asks a stage to build, with the dicts as [h] has them:
    the variant and the keyword arguments for the registry.  Without the
    keyword it is the default variant without arguments; with a dict it is
    its ["type"] entry and its other entries. *)
Definition requested (kwargs : gmap string Value) (h : Store)
    (key default_type : string) : option (PyVal * Config) :=
  match kwargs !! key with
  | None => Some (PyStr default_type, ∅)
  | Some (VRef l) =>
      match h l !! "type" with
      | Some component_type => Some (component_type, delete "type" (h l))
      | None => None
      end
  | Some (VVal _) => None
  end.

(** [config.pop("type")] raises [e] on what the caller gave for [key], with
    the dicts as [h] has them. *)
Definition pop_fails (kwargs : gmap string Value) (h : Store) (key : string)
    (e : Exc) : Prop :=
  match kwargs !! key with
  | None => False
  | Some (VRef l) => h l !! "type" = None ∧ e = KeyError "type"
  | Some (VVal (PyList _)) => e = TypeError
  | Some (VVal _) => e = AttributeError
  end.

(** The call was answered by raising [e]. *)
Definition call_raises
    (registry_build : Registry → PyVal → Config → PyExc + Component)
    (BaseModel_init :
       Component → Component → Component → Component → gmap string Value →
       PyExc + PipelineEnvironment)
    (call : InitCall) (e : PyExc) : Prop :=
  match call with
  | CallBuild registry component_type config =>
      registry_build registry component_type config = inl e
  | CallBaseModel x1 x2 x3 x4 kwargs => BaseModel_init x1 x2 x3 x4 kwargs = inl e
  end.

(** The call is a build that the registry answered with [component]. *)
Definition build_returns
    (registry_build : Registry → PyVal → Config → PyExc + Component)
    (call : InitCall) (component : Component) : Prop :=
  match call with
  | CallBuild registry component_type config =>
      registry_build registry component_type config = inr component
  | CallBaseModel _ _ _ _ _ => False
  end.

(** What a call hands over is well-formed for the keywords [kwargs] of the
    caller: a registry is never handed a ["type"] key, and [BaseModel] is
    handed the caller's keywords without the four strategy keys. *)
Definition well_formed_call (kwargs : gmap string Value) (call : InitCall) : Prop :=
  match call with
  | CallBuild _ _ config => config !! "type" = None
  | CallBaseModel _ _ _ _ kwargs' =>
      kwargs' = foldl (λ kw key, delete key kw) kwargs strategy_keys
  end.

End Construction.

Module Demo3.

(** A registry that builds a component of the class it is asked for. *)
Definition registry_build (_ : Construction.Registry) (component_type : PyVal)
    (_ : gmap string PyVal) : PyExc + Component :=
  match component_type with
  | PyStr s => inr {| component_class := s |}
  | _ => inl TypeError
  end.

(** A [BaseModel] that fills the other fields with their defaults. *)
Definition BaseModel_init (role_assigner decision_maker executor evaluator : Component)
    (_ : gmap string Construction.Value) : PyExc + PipelineEnvironment :=
  inr {| agents := None; role_assigner := role_assigner;
         decision_maker := decision_maker; executor := executor;
         evaluator := evaluator; task_description := "task";
         cnt_turn := 0; max_turn := 10; success := false |}.

(** Keywords with a configuration for the decision maker, the dict at
    address 0. *)
Definition kwargs : gmap string Construction.Value :=
  <["decision_maker" := Construction.VRef 0]>
    {[ "task_description" := Construction.VVal (PyStr "task") ]}.

Definition store : nat → gmap string PyVal :=
  λ l, match l with
       | O => <["type" := PyStr "dynamic"]> {[ "max_inner_turns" := PyInt 3 ]}
       | _ => ∅
       end.

End Demo3.

(** * Properties *)

(** ** Runs of the stages *)

(** How a sequenced computation runs, given the run of its first part. *)
Lemma bind_run {A B} (m : M A) (k : A → M B) self r self1 t1 :
  m self = (r, self1, t1) →
  (m ≫= k) self =
  match r with
  | inl e => (inl e, self1, t1)
  | inr a => let '(r', self2, t2) := k a self1 in (r', self2, t1 ++ t2)
  end.
Proof. intros Hm. unfold mbind, M_bind, bind. by rewrite Hm. Qed.

Ltac run_bind H := erewrite bind_run by exact H; cbn beta iota.
Ltac run_bind_refl := erewrite bind_run by reflexivity; cbn beta iota.

Lemma agents_getitem_run key self :
  agents_getitem key self =
  (match agents self with
   | None => inl TypeError
   | Some m => match m !! key with
               | None => inl (KeyError key)
               | Some e => inr e
               end
   end, self, []).
Proof.
  unfold agents_getitem, mbind, M_bind, bind, getattr, raise, mret, M_ret, ret.
  destruct (agents self) as [m|]; [|reflexivity].
  destruct (m !! key); reflexivity.
Qed.

(** [decision_making] makes exactly one call to [astep]; the keyword
    [manager=] is passed exactly when the class of [manager] is
    [ManagerAgent]. *)
Lemma decision_making_run c agts manager previous_plan advice self :
  let kw := if String.eqb (manager_type_str manager) ManagerAgent_class
            then Some manager else None in
  decision_making c agts manager previous_plan advice self =
  (decision_maker_astep c agts kw (task_description self) previous_plan advice,
   self,
   [CallAstep agts kw (task_description self) previous_plan advice]).
Proof.
  unfold decision_making.
  destruct (String.eqb (manager_type_str manager) ManagerAgent_class);
    reflexivity.
Qed.

Lemma execute_run c plan self :
  execute c plan self = (executor_step c plan, self, [CallExecutor plan]).
Proof. reflexivity. Qed.

(** [role_assign] either fails on the role mapping before it calls
    anything, or calls the role assigner once and hands its answer back. *)
Lemma role_assign_run c advice self :
  (∃ e, role_assign c advice self = (inl e, self, [])) ∨
  (∃ assigner group_members,
      role_assign c advice self =
      (role_assigner_step c assigner group_members advice (task_description self),
       self,
       [CallRoleAssigner assigner group_members advice (task_description self)])).
Proof.
  unfold role_assign, mbind, M_bind, bind.
  rewrite !agents_getitem_run.
  destruct (agents self) as [m|]; [|left; eauto].
  destruct (m !! ROLE_ASSIGNMENT) as [assigner|]; [|left; eauto].
  destruct (m !! SOLVER) as [solver|]; [|left; eauto].
  destruct (m !! CRITIC) as [[critic|critics]|]; [left; eauto| |left; eauto].
  right. exists assigner, (solver :: (OneAgent <$> critics)). simpl.
  unfold call.
  by destruct (role_assigner_step c assigner _ advice (task_description self)).
Qed.

(** [evaluate] either fails on the role mapping, or calls the evaluator
    once; an answer [(score, advice)] is handed back as it is. *)
Lemma evaluate_run c result self :
  (∃ e, evaluate c result self = (inl e, self, [])) ∨
  (∃ agent,
      evaluate c result self =
      (evaluator_step c agent result (task_description self),
       self,
       [CallEvaluator agent result (task_description self)])).
Proof.
  unfold evaluate, mbind, M_bind, bind.
  rewrite agents_getitem_run.
  destruct (agents self) as [m|]; [|left; eauto].
  destruct (m !! EVALUATION) as [agent|]; [|left; eauto].
  right. exists agent. simpl. unfold call.
  by destruct (evaluator_step c agent result (task_description self))
    as [e|[score advice]].
Qed.

(** The stages read the controller object and never write it. *)
Lemma role_assign_frame c advice self : after (role_assign c advice self) = self.
Proof.
  by destruct (role_assign_run c advice self) as [[e ->]|(a & g & ->)].
Qed.

Lemma evaluate_frame c result self : after (evaluate c result self) = self.
Proof.
  by destruct (evaluate_run c result self) as [[e ->]|(a & ->)].
Qed.

(** The decision stage always runs, and as the relation says. *)
Lemma decision_run_total c self agts :
  ∃ r t,
    decision_run c self agts r t ∧
    (if is_dynamic self
     then manager ← agents_getitem MANAGER;
          decision_making c agts (ManagerEntry manager)
                          "No solution yet." "No advice yet."
     else decision_making c agts (ManagerStr "No solution yet.")
                          "No advice yet." "No advice yet.") self
    = (r, self, t).
Proof.
  destruct (is_dynamic self) eqn:Hdyn.
  - unfold mbind, M_bind, bind.
    pose proof (agents_getitem_run MANAGER self) as Hget.
    destruct (agents_getitem MANAGER self) as [[[e|manager] s1] t1];
      injection Hget as Hr -> ->.
    + exists (inl e), []. split; [|done].
      apply decision_no_manager; [done|]. by rewrite agents_getitem_run, Hr.
    + rewrite decision_making_run. cbn zeta. eexists _, _. split; [|done].
      apply (decision_dynamic c self agts manager);
        [done| |apply decision_making_run].
      by rewrite agents_getitem_run, Hr.
  - rewrite decision_making_run. eexists _, _. split; [|done].
    apply decision_not_dynamic; [done|apply decision_making_run].
Qed.

(** Every run of [step] is a run of the round. *)
Lemma step_round_run c self :
  round_run c self (outcome (step c self)) (after (step c self))
            (calls (step c self)).
Proof.
  unfold step.
  destruct (role_assign c "No advice yet." self) as [[r1 s1] t1] eqn:Hra.
  pose proof (role_assign_frame c "No advice yet." self) as Hs1.
  rewrite Hra in Hs1. unfold after in Hs1. simpl in Hs1. subst s1.
  run_bind Hra.
  destruct r1 as [e|agts]; [by apply round_role_assign_raises|].
  run_bind_refl.
  destruct (decision_run_total c self agts) as (r2 & t2 & Hdec & Hrun).
  run_bind Hrun.
  destruct r2 as [e|[|m ms]].
  { simpl. by eapply round_decision_raises. }
  { run_bind_refl. simpl. rewrite ?app_nil_r. by eapply round_empty_plan. }
  run_bind_refl.
  erewrite bind_run by apply execute_run.
  destruct (executor_step c (content m)) as [e|result] eqn:Hexe.
  { simpl. rewrite ?app_nil_r. by eapply round_execute_raises. }
  destruct (evaluate c result self) as [[r3 s3] t3] eqn:Hev.
  pose proof (evaluate_frame c result self) as Hs3.
  rewrite Hev in Hs3. unfold after in Hs3. simpl in Hs3. subst s3.
  run_bind Hev.
  destruct r3 as [e|[score advice]].
  { simpl. rewrite ?app_nil_r. by eapply round_evaluate_raises. }
  run_bind_refl.
  destruct (accept_condition score) as [e|accept] eqn:Hacc.
  { simpl. rewrite ?app_nil_r. by eapply round_score_raises. }
  destruct accept; simpl; rewrite ?app_nil_r.
  - exact (round_verdict c self agts t1 m ms t2 result score advice t3 true
                         Hra Hdec Hexe Hev Hacc).
  - exact (round_verdict c self agts t1 m ms t2 result score advice t3 false
                         Hra Hdec Hexe Hev Hacc).
Qed.

Lemma role_assign_calls c advice self r s t call :
  role_assign c advice self = (r, s, t) →
  call ∈ t →
  ∃ assigner group_members,
    call = CallRoleAssigner assigner group_members advice (task_description self) ∧
    t = [call] ∧
    r = role_assigner_step c assigner group_members advice (task_description self) ∧
    is_Some (agents self).
Proof.
  intros Hrun Hin.
  destruct (role_assign_run c advice self) as [[e He]|(a & g & Hag)].
  - rewrite He in Hrun. injection Hrun as <- <- <-. by apply elem_of_nil in Hin.
  - rewrite Hag in Hrun. injection Hrun as <- <- <-.
    apply list_elem_of_singleton in Hin as ->. exists a, g.
    repeat split; try done.
    destruct (agents self) eqn:Hags; [done|].
    unfold role_assign in Hag. erewrite bind_run in Hag
      by (rewrite agents_getitem_run, Hags; reflexivity).
    discriminate.
Qed.

Lemma evaluate_calls c result self r s t call :
  evaluate c result self = (r, s, t) →
  call ∈ t →
  ∃ agent,
    call = CallEvaluator agent result (task_description self) ∧
    t = [call] ∧
    r = evaluator_step c agent result (task_description self).
Proof.
  intros Hrun Hin.
  destruct (evaluate_run c result self) as [[e He]|(a & Ha)].
  - rewrite He in Hrun. injection Hrun as <- <- <-. by apply elem_of_nil in Hin.
  - rewrite Ha in Hrun. injection Hrun as <- <- <-.
    apply list_elem_of_singleton in Hin as ->. by exists a.
Qed.

(** The decision stage calls [astep] at most once, for the roster it was
    given; [kw] tells the protocol. *)
Lemma decision_run_calls c self agts r t :
  decision_run c self agts r t →
  (t = [] ∧ is_dynamic self = true ∧ role_mapping_get self MANAGER = None ∧
   r = inl (match agents self with
            | None => TypeError
            | Some _ => KeyError MANAGER
            end)) ∨
  (∃ kw previous_plan,
      t = [CallAstep agts kw (task_description self) previous_plan "No advice yet."] ∧
      r = decision_maker_astep c agts kw (task_description self) previous_plan
                               "No advice yet." ∧
      ((is_dynamic self = false ∧ kw = None) ∨
       (∃ manager, is_dynamic self = true ∧
                   role_mapping_get self MANAGER = Some manager ∧
                   kw = if String.eqb (manager_type_str (ManagerEntry manager))
                                      ManagerAgent_class
                        then Some (ManagerEntry manager) else None))).
Proof.
  unfold role_mapping_get.
  destruct 1 as [r t Hdyn Hrun|manager r t Hdyn Hget Hrun|e Hdyn Hget].
  - rewrite decision_making_run in Hrun. cbn in Hrun.
    injection Hrun as <- <-. right. eexists None, _. eauto.
  - rewrite decision_making_run in Hrun. cbn zeta in Hrun.
    injection Hrun as <- <-. right.
    rewrite agents_getitem_run in Hget.
    destruct (agents self) as [m|]; [|discriminate]. simpl.
    destruct (m !! MANAGER) as [e|] eqn:Hm; [|discriminate].
    injection Hget as ->. eexists _, _. split; [reflexivity|].
    split; [reflexivity|]. right. by exists manager.
  - left. rewrite agents_getitem_run in Hget.
    destruct (agents self) as [m|]; simpl.
    + destruct (m !! MANAGER) as [e'|] eqn:Hm; [discriminate|].
      by injection Hget as <-.
    + by injection Hget as <-.
Qed.

(** Locating a call of the trace in the stage that made it. *)
Ltac split_trace :=
  repeat match goal with
         | H : _ ∈ _ ++ _ |- _ => apply elem_of_app in H as [H|H]
         | H : _ ∈ _ :: _ |- _ => apply elem_of_cons in H as [H|H]
         | H : _ ∈ [] |- _ => by apply elem_of_nil in H
         end.

Ltac stage_of_call :=
  match goal with
  | Hrun : role_assign _ _ _ = (_, _, ?t), H : _ ∈ ?t |- _ =>
      destruct (role_assign_calls _ _ _ _ _ _ _ Hrun H) as (? & ? & ? & ? & ? & ?)
  | Hrun : evaluate _ _ _ = (_, _, ?t), H : _ ∈ ?t |- _ =>
      destruct (evaluate_calls _ _ _ _ _ _ _ Hrun H) as (? & ? & ? & ?)
  | Hrun : decision_run _ _ _ _ ?t, H : _ ∈ ?t |- _ =>
      destruct (decision_run_calls _ _ _ _ _ Hrun)
        as [(? & ? & ? & ?)|(? & ? & ? & ? & ?)]; subst t; split_trace
  end.

(** A round that raises leaves the object as it found it. *)
Lemma round_run_raise_frame c self e s' t :
  round_run c self (inl e) s' t → s' = self.
Proof. by inversion 1. Qed.

(** A round that returns has counted itself and, at most, set [success]. *)
Lemma round_run_return c self x s' t :
  round_run c self (inr x) s' t →
  ∃ accept : bool,
    s' = with_cnt_turn (cnt_turn self + 1)
                       (if accept then with_success true self else self) ∧
    x.2 = success s' ∧
    last x.1.2 = Some (if accept then accept_entry else reject_entry).
Proof.
  inversion 1; subst. exists accept. by destruct accept.
Qed.

(** The verdict of a round whose evaluator returned [(score, advice)]: it
    is the acceptance rule that decides how the round ends. *)
Lemma round_run_verdict c self r s' t score advice :
  round_run c self r s' t →
  evaluator_returned c t score advice →
  match accept_condition score with
  | inl e => r = inl e ∧ s' = self
  | inr accept =>
      (∃ result logs,
          r = inr (result, logs, if accept then true else success self) ∧
          last logs = Some (if accept then accept_entry else reject_entry)) ∧
      s' = with_cnt_turn (cnt_turn self + 1)
                         (if accept then with_success true self else self)
  end.
Proof.
  intros Hrun (agent & result & task & Hin & Hans).
  destruct Hrun as [| | | | |? ? ? ? ? ? ? ? ? ? ? ? ? ? Hacc
                    |? ? ? ? ? ? ? ? ? ? ? ? ? ? Hacc];
    split_trace; try stage_of_call; simplify_eq; try congruence.
  - match goal with
    | H : inr _ = evaluator_step _ _ _ _ |- _ =>
        rewrite Hans in H; injection H as -> ->
    end.
    by rewrite Hacc.
  - match goal with
    | H : inr _ = evaluator_step _ _ _ _ |- _ =>
        rewrite Hans in H; injection H as -> ->
    end.
    rewrite Hacc. split; [|done]. eexists _, _. split; [done|].
    by destruct accept.
Qed.

(** The same, for [step]. *)
Lemma step_verdict c self score advice :
  evaluator_returned c (calls (step c self)) score advice →
  match accept_condition score with
  | inl e => outcome (step c self) = inl e ∧ after (step c self) = self
  | inr accept =>
      (∃ result logs,
          outcome (step c self) =
            inr (result, logs, if accept then true else success self) ∧
          last logs = Some (if accept then accept_entry else reject_entry)) ∧
      after (step c self) =
        with_cnt_turn (cnt_turn self + 1)
                      (if accept then with_success true self else self)
  end.
Proof. apply round_run_verdict, step_round_run. Qed.

(** The stages before and after decision making never call [astep]. *)
Lemma role_assign_existsb c advice self r s t (f : Call → bool) :
  (∀ a g adv task, f (CallRoleAssigner a g adv task) = false) →
  role_assign c advice self = (r, s, t) → existsb f t = false.
Proof.
  intros Hf Hrun.
  destruct (role_assign_run c advice self) as [[e He]|(a & g & Hag)].
  - rewrite He in Hrun. by injection Hrun as <- <- <-.
  - rewrite Hag in Hrun. injection Hrun as <- <- <-. simpl. by rewrite Hf.
Qed.

Lemma evaluate_existsb c result self r s t (f : Call → bool) :
  (∀ a res task, f (CallEvaluator a res task) = false) →
  evaluate c result self = (r, s, t) → existsb f t = false.
Proof.
  intros Hf Hrun.
  destruct (evaluate_run c result self) as [[e He]|(a & Ha)].
  - rewrite He in Hrun. by injection Hrun as <- <- <-.
  - rewrite Ha in Hrun. injection Hrun as <- <- <-. simpl. by rewrite Hf.
Qed.

(** A round whose role assigner returned [roster] goes through the
    decision stage with that roster, and the [astep] calls of the round are
    those of that stage. *)
Lemma round_run_decision c self r s' t roster (f : Call → bool) :
  (∀ a g adv task, f (CallRoleAssigner a g adv task) = false) →
  (∀ a res task, f (CallEvaluator a res task) = false) →
  (∀ plan, f (CallExecutor plan) = false) →
  round_run c self r s' t →
  role_assigner_returned c t roster →
  ∃ r2 t2,
    decision_run c self roster r2 t2 ∧
    existsb f t = existsb f t2 ∧
    (∀ e, r2 = inl e → r = inl e) ∧
    is_Some (agents self).
Proof.
  intros Hf1 Hf2 Hf3 Hrun (assigner & g & adv & task & Hin & Hans).
  destruct Hrun as [e t1 Hra|agts t1 e t2 Hra Hdec|agts t1 t2 Hra Hdec
                    |agts t1 m ms t2 e Hra Hdec Hexe
                    |agts t1 m ms t2 result e t3 Hra Hdec Hexe Hev
                    |agts t1 m ms t2 result score advice t3 e Hra Hdec Hexe Hev Hacc
                    |agts t1 m ms t2 result score advice t3 accept Hra Hdec Hexe Hev Hacc];
    split_trace; try stage_of_call; simplify_eq; try congruence;
    match goal with
    | H : inr _ = role_assigner_step _ _ _ _ _ |- _ =>
        rewrite Hans in H; injection H as ->
    end;
    eexists _, _; (split; [exact Hdec|]);
    rewrite ?existsb_app; simpl; rewrite ?Hf1, ?Hf3;
    rewrite ?(evaluate_existsb _ _ _ _ _ _ f Hf2 Hev);
    rewrite ?orb_false_r; (split; [done|]); (split; [|done]);
    intros; congruence.
Qed.

Lemma py_ge_8_true s : py_ge s 8 = inr true ↔ meets_threshold s.
Proof.
  unfold meets_threshold. split.
  - destruct s as [|b|z|?|?|?]; simpl; try discriminate.
    + by destruct b.
    + intros [= Hz]. exists z. split; [done|]. by apply Z.geb_le in Hz.
  - intros (z & -> & Hz). simpl. f_equal. by apply Z.geb_le.
Qed.

Lemma ratings_accept l :
  (∃ bs, list_comprehension (λ s, py_ge s 8) l = inr bs ∧ all bs = true) ↔
  Forall meets_threshold l.
Proof.
  induction l as [|s l IH]; simpl.
  - split; [constructor|]. intros _. by exists [].
  - split.
    + intros (bs & Hbs & Hall).
      destruct (py_ge s 8) as [e|b] eqn:Hs; [discriminate|].
      destruct (list_comprehension _ l) as [e|bs'] eqn:Hl; [discriminate|].
      injection Hbs as <-. unfold all in Hall. simpl in Hall.
      apply andb_true_iff in Hall as [Hb Hall]. unfold id in Hb. subst b.
      constructor; [by apply py_ge_8_true|].
      apply IH. by exists bs'.
    + intros Hall. apply Forall_cons in Hall as [Hs Hl].
      apply py_ge_8_true in Hs. apply IH in Hl as (bs & Hbs & Hall).
      rewrite Hs, Hbs. exists (true :: bs). split; [done|].
      unfold all. simpl. exact Hall.
Qed.

Lemma accept_condition_true score :
  accept_condition score = inr true ↔ good_score score.
Proof.
  unfold good_score.
  destruct score as [|b|z|s|l|l]; unfold accept_condition; simpl.
  - split; [discriminate|]. intros [|(l & [|] & _)]; discriminate.
  - destruct b; simpl.
    + split; [by left|done].
    + split; [discriminate|]. intros [|(l & [|] & _)]; discriminate.
  - split; [discriminate|]. intros [|(l & [|] & _)]; discriminate.
  - split; [discriminate|]. intros [|(l & [|] & _)]; discriminate.
  - split.
    + destruct (list_comprehension _ l) as [e|bs] eqn:Hl; [discriminate|].
      intros [= Hall]. right. exists l. split; [by left|].
      apply ratings_accept. by exists bs.
    + intros [|(l' & [[= <-]|] & Hall)]; try discriminate.
      apply ratings_accept in Hall as (bs & -> & ->). done.
  - split.
    + destruct (list_comprehension _ l) as [e|bs] eqn:Hl; [discriminate|].
      intros [= Hall]. right. exists l. split; [by right|].
      apply ratings_accept. by exists bs.
    + intros [|(l' & [|[= <-]] & Hall)]; try discriminate.
      apply ratings_accept in Hall as (bs & -> & ->). done.
Qed.

(** A round that returns has heard from its evaluator. *)
Lemma round_run_return_evaluator c self x s' t :
  round_run c self (inr x) s' t →
  ∃ score advice, evaluator_returned c t score advice.
Proof.
  inversion 1 as [| | | | | |agts t1 m ms t2 result score advice t3 accept
                              Hra Hdec Hexe Hev Hacc]; subst.
  exists score, advice.
  destruct (evaluate_run c result self) as [[e He]|(agent & Ha)];
    rewrite Hev in *; [discriminate|].
  injection Ha as Hans ->.
  exists agent, result, (task_description self). split; [|done].
  rewrite !elem_of_app, !list_elem_of_singleton. auto.
Qed.

(** ** The round: acceptance and turn counting *)

(** C2. In a round that completes, [step] takes the accepting branch (the
    one that logs the acceptance and assigns [success = True]) if and only
    if the evaluator's score is the boolean true or a sequence of ratings
    that are all at least 8; it then leaves [success] true, and on any other
    score it leaves [success] as it was.  The flag returned is the
    [success] of the object. *)
Theorem step_accepts_iff_good_score c self result logs ok :
  outcome (step c self) = inr (result, logs, ok) →
  ∃ score advice,
    evaluator_returned c (calls (step c self)) score advice ∧
    (last logs = Some accept_entry ↔ good_score score) ∧
    (good_score score → success (after (step c self)) = true) ∧
    (¬ good_score score →
     success (after (step c self)) = success self ∧
     last logs = Some reject_entry) ∧
    ok = success (after (step c self)).
Proof.
  intros Hout.
  pose proof (step_round_run c self) as Hrun. rewrite Hout in Hrun.
  destruct (round_run_return_evaluator _ _ _ _ _ Hrun) as (score & advice & Hev).
  exists score, advice. split; [done|].
  pose proof (step_verdict c self score advice Hev) as Hverdict.
  pose proof (accept_condition_true score) as Hgood.
  destruct (accept_condition score) as [e|accept].
  { destruct Hverdict as [Hraise _]. congruence. }
  destruct Hverdict as [(result' & logs' & Hout' & Hlast) ->].
  rewrite Hout in Hout'. injection Hout' as <- <- ->.
  destruct accept; simpl.
  - assert (good_score score) as Hg by by apply Hgood.
    repeat split; try done.
  - assert (¬ good_score score) as Hg by (intros Hg; by apply Hgood in Hg).
    repeat split; try done.
    rewrite Hlast. discriminate.
Qed.

Lemma step_accepts_iff_good_score_witness :
  let c := Demo.collaborators [Demo.solver_agent] [Demo.plan_a]
             (PyList [PyInt 9; PyInt 8; PyInt 10]) in
  let self := Demo.env Demo.vertical (Some Demo.roles) 0 false in
  ∃ result logs ok,
    outcome (step c self) = inr (result, logs, ok) ∧
    ∃ score advice,
      evaluator_returned c (calls (step c self)) score advice ∧
      (last logs = Some accept_entry ↔ good_score score) ∧
      (good_score score → success (after (step c self)) = true) ∧
      (¬ good_score score →
       success (after (step c self)) = success self ∧
       last logs = Some reject_entry) ∧
      ok = success (after (step c self)).
Proof.
  intros c self. eexists _, _, _.
  assert (∀ x, x = outcome (step c self) → outcome (step c self) = x)
    as Hx by done.
  split; [apply Hx; vm_compute; reflexivity|].
  eapply (step_accepts_iff_good_score c self).
  apply Hx. vm_compute. reflexivity.
Defined.

(** C3. A round that completes, accepted or rejected, has incremented
    [cnt_turn] by exactly 1. *)
Theorem step_increments_cnt_turn c self result logs ok :
  outcome (step c self) = inr (result, logs, ok) →
  (last logs = Some accept_entry ∨ last logs = Some reject_entry) ∧
  cnt_turn (after (step c self)) = cnt_turn self + 1.
Proof.
  intros Hout.
  pose proof (step_round_run c self) as Hrun. rewrite Hout in Hrun.
  apply round_run_return in Hrun as (accept & -> & _ & Hlast). simpl in Hlast.
  split; [|done]. destruct accept; auto.
Qed.

Lemma step_increments_cnt_turn_witness :
  let c := Demo.collaborators [Demo.solver_agent] [Demo.plan_a]
             (PyList [PyInt 9; PyInt 7; PyInt 10]) in
  let self := Demo.env Demo.vertical (Some Demo.roles) 4 false in
  ∃ result logs ok,
    outcome (step c self) = inr (result, logs, ok) ∧
    (last logs = Some accept_entry ∨ last logs = Some reject_entry) ∧
    cnt_turn (after (step c self)) = 4 + 1.
Proof.
  intros c self. eexists _, _, _.
  assert (∀ x, x = outcome (step c self) → outcome (step c self) = x)
    as Hx by done.
  split; [apply Hx; vm_compute; reflexivity|].
  eapply (step_increments_cnt_turn c self).
  apply Hx. vm_compute. reflexivity.
Defined.

(** ** Termination test, reset and sessions *)

(** C4. [is_done] returns true exactly when [cnt_turn >= max_turn] or
    [success] is true, and false otherwise; its value is a function of
    these three fields alone, it calls no strategy and it leaves the object
    as it found it. *)
Theorem is_done_iff self :
  ∃ b : bool,
    is_done self = (inr b, self, []) ∧
    (b = true ↔ cnt_turn self >= max_turn self ∨ success self = true) ∧
    (b = false ↔ ¬ (cnt_turn self >= max_turn self ∨ success self = true)) ∧
    b = (cnt_turn self >=? max_turn self) || success self.
Proof.
  exists ((cnt_turn self >=? max_turn self) || success self).
  split; [|split; [|split; [|done]]].
  - unfold is_done. run_bind_refl. run_bind_refl.
    by destruct (cnt_turn self >=? max_turn self).
  - rewrite orb_true_iff, Z.geb_leb, Z.leb_le. split; (intros [?|?]; [left; lia|by right]).
  - rewrite orb_false_iff, Z.geb_leb, Z.leb_gt. split.
    + intros [? Hs] [?|?]; [lia|congruence].
    + intros Hn. split; [lia|]. destruct (success self); [|done].
      exfalso. apply Hn. by right.
Qed.

Lemma step_success_mono c self :
  success self = true → success (after (step c self)) = true.
Proof.
  intros Hs. pose proof (step_round_run c self) as Hrun.
  destruct (outcome (step c self)) as [e|x].
  - by rewrite (round_run_raise_frame _ _ _ _ _ Hrun).
  - apply round_run_return in Hrun as (accept & -> & _). by destruct accept.
Qed.

Lemma run_op_success_mono o self :
  success self = true → success (run_op o self) = true.
Proof.
  destruct o as [c| | |task]; simpl; [apply step_success_mono|done| |done].
  intros Hs. destruct (is_done_iff self) as (b & -> & _). done.
Qed.

(** C5. Once [success] is true, no sequence of [step], [reset], [is_done]
    and [set_task_description] makes it false again; [is_done] then
    reports true. *)
Theorem success_monotone ops self :
  success self = true →
  success (run_ops ops self) = true ∧
  outcome (is_done (run_ops ops self)) = inr true.
Proof.
  intros Hs.
  assert (success (run_ops ops self) = true) as Hs'.
  { revert self Hs. induction ops as [|o ops IH]; intros self Hs; [done|].
    simpl. apply IH. by apply run_op_success_mono. }
  split; [done|].
  destruct (is_done_iff (run_ops ops self)) as (b & -> & _ & _ & ->).
  rewrite Hs'. by rewrite orb_true_r.
Qed.

Lemma success_monotone_witness :
  let accept := Demo.collaborators [Demo.solver_agent] [Demo.plan_a] (PyBool true) in
  let reject := Demo.collaborators [Demo.solver_agent] [Demo.plan_a] (PyBool false) in
  let ops := [OpReset; OpStep reject; OpIsDone; OpSetTaskDescription "next";
              OpStep reject; OpReset] in
  let self := run_op (OpStep accept)
                     (Demo.env Demo.vertical (Some Demo.roles) 3 false) in
  success self = true ∧
  success (run_ops ops self) = true ∧
  outcome (is_done (run_ops ops self)) = inr true.
Proof.
  intros accept reject ops self.
  split; [vm_compute; reflexivity|].
  apply (success_monotone ops self). vm_compute. reflexivity.
Defined.

(** C6. [reset] sets [cnt_turn] to 0 and changes nothing else: [success],
    the task description, the role mapping, the four strategy instances
    (and [max_turn]) are as before; it calls no strategy and cannot
    raise. *)
Theorem reset_only_zeroes_cnt_turn self :
  outcome (reset self) = inr () ∧
  calls (reset self) = [] ∧
  cnt_turn (after (reset self)) = 0 ∧
  success (after (reset self)) = success self ∧
  task_description (after (reset self)) = task_description self ∧
  agents (after (reset self)) = agents self ∧
  role_assigner (after (reset self)) = role_assigner self ∧
  decision_maker (after (reset self)) = decision_maker self ∧
  executor (after (reset self)) = executor self ∧
  evaluator (after (reset self)) = evaluator self ∧
  max_turn (after (reset self)) = max_turn self.
Proof. repeat split. Qed.

(** ** Dispatch between the two decision protocols *)

Lemma is_dynamic_true self :
  is_dynamic self = true ↔
  component_class (decision_maker self) = DynamicDecisionMaker_class.
Proof. apply String.eqb_eq. Qed.

(** The class test of line 200 on an entry of the role mapping: only a
    single actor of class [ManagerAgent] passes. *)
Lemma manager_entry_test e :
  String.eqb (manager_type_str (ManagerEntry e)) ManagerAgent_class = true ↔
  ∃ a, e = OneAgent a ∧ agent_class a = ManagerAgent_class.
Proof.
  destruct e as [a|l]; simpl.
  - rewrite String.eqb_eq. split; [by exists a|]. by intros (a' & [= <-] & ?).
  - split; [by vm_compute|]. by intros (a' & ? & ?).
Qed.

(** Which protocol the decision stage invokes. *)
Lemma decision_run_protocol c self agts r t :
  decision_run c self agts r t →
  (manager_guided_invoked t = true ↔
     is_dynamic self = true ∧
     ∃ a, role_mapping_get self MANAGER = Some (OneAgent a) ∧
          agent_class a = ManagerAgent_class) ∧
  (standard_invoked t = true ↔
     is_dynamic self = false ∨
     ∃ e, role_mapping_get self MANAGER = Some e ∧
          manager_type_str (ManagerEntry e) ≠ ManagerAgent_class) ∧
  (is_dynamic self = true → role_mapping_get self MANAGER = None →
   is_Some (agents self) → r = inl (KeyError MANAGER)).
Proof.
  intros Hdec.
  destruct (decision_run_calls _ _ _ _ _ Hdec)
    as [(-> & Hdyn & Hget & ->)
       |(kw & pp & -> & -> & [[Hdyn ->]|(manager & Hdyn & Hget & ->)])].
  - split; [|split].
    + split; [done|]. intros (_ & a & Ha & _). congruence.
    + split; [done|]. intros [?|(e & He & _)]; congruence.
    + intros _ _ [m Hm]. by rewrite Hm.
  - split; [|split].
    + split; [done|]. intros [? _]. congruence.
    + split; [by left|done].
    + congruence.
  - pose proof (manager_entry_test manager) as Htest.
    destruct (String.eqb (manager_type_str (ManagerEntry manager))
                         ManagerAgent_class) eqn:Heqb.
    + split; [|split].
      * split; [|done]. intros _. split; [done|].
        destruct Htest as [(a & -> & Ha) _]; [done|]. by exists a.
      * split; [done|]. intros [?|(e & He & Hne)]; [congruence|].
        rewrite Hget in He. injection He as <-.
        by apply String.eqb_eq in Heqb.
      * congruence.
    + split; [|split].
      * split; [done|]. intros (_ & a & Ha & Hcls).
        rewrite Hget in Ha. injection Ha as ->.
        assert (false = true) by (apply Htest; by exists a). done.
      * split; [|done]. intros _. right. exists manager. split; [done|].
        by apply String.eqb_neq.
      * congruence.
Qed.

(** C1 (as the code has it).  In a round whose role assignment returned:
    the manager-guided protocol is invoked if and only if the decision
    maker's class is [DynamicDecisionMaker] and the MANAGER entry of the
    role mapping is a single actor of class [ManagerAgent]; the standard
    protocol is invoked if and only if the decision maker is of another
    class (whatever the role mapping holds) or the MANAGER entry is of
    another type; with a dynamic decision maker and no MANAGER entry
    neither is invoked and the round ends in [KeyError]. *)
Theorem decision_protocol_dispatch c self roster :
  role_assigner_returned c (calls (step c self)) roster →
  (manager_guided_invoked (calls (step c self)) = true ↔
     component_class (decision_maker self) = DynamicDecisionMaker_class ∧
     ∃ a, role_mapping_get self MANAGER = Some (OneAgent a) ∧
          agent_class a = ManagerAgent_class) ∧
  (standard_invoked (calls (step c self)) = true ↔
     component_class (decision_maker self) ≠ DynamicDecisionMaker_class ∨
     ∃ e, role_mapping_get self MANAGER = Some e ∧
          manager_type_str (ManagerEntry e) ≠ ManagerAgent_class) ∧
  (component_class (decision_maker self) = DynamicDecisionMaker_class →
   role_mapping_get self MANAGER = None →
   outcome (step c self) = inl (KeyError MANAGER)).
Proof.
  intros Hroster.
  pose proof (step_round_run c self) as Hrun.
  rewrite <- is_dynamic_true, not_true_iff_false.
  split; [|split].
  - destruct (round_run_decision c self _ _ _ roster is_manager_guided
                ltac:(done) ltac:(done) ltac:(done) Hrun Hroster)
      as (r2 & t2 & Hdec & Heq & _).
    unfold manager_guided_invoked. rewrite Heq.
    by destruct (decision_run_protocol c self roster r2 t2 Hdec) as (? & _ & _).
  - destruct (round_run_decision c self _ _ _ roster is_standard
                ltac:(done) ltac:(done) ltac:(done) Hrun Hroster)
      as (r2 & t2 & Hdec & Heq & _).
    unfold standard_invoked. rewrite Heq.
    by destruct (decision_run_protocol c self roster r2 t2 Hdec) as (_ & ? & _).
  - intros Hdyn Hnone.
    destruct (round_run_decision c self _ _ _ roster is_standard
                ltac:(done) ltac:(done) ltac:(done) Hrun Hroster)
      as (r2 & t2 & Hdec & _ & Hraise & Hags).
    apply Hraise.
    destruct (decision_run_protocol c self roster r2 t2 Hdec) as (_ & _ & Hkey).
    by apply Hkey.
Qed.

Lemma decision_protocol_dispatch_witness :
  let c := Demo.collaborators [Demo.solver_agent] [Demo.plan_a] (PyBool true) in
  let self := Demo.env Demo.dynamic
                (Some (Demo.roles_with (OneAgent Demo.manager_agent))) 0 false in
  role_assigner_returned c (calls (step c self)) [Demo.solver_agent] ∧
  (manager_guided_invoked (calls (step c self)) = true ↔
     component_class (decision_maker self) = DynamicDecisionMaker_class ∧
     ∃ a, role_mapping_get self MANAGER = Some (OneAgent a) ∧
          agent_class a = ManagerAgent_class) ∧
  (standard_invoked (calls (step c self)) = true ↔
     component_class (decision_maker self) ≠ DynamicDecisionMaker_class ∨
     ∃ e, role_mapping_get self MANAGER = Some e ∧
          manager_type_str (ManagerEntry e) ≠ ManagerAgent_class) ∧
  (component_class (decision_maker self) = DynamicDecisionMaker_class →
   role_mapping_get self MANAGER = None →
   outcome (step c self) = inl (KeyError MANAGER)).
Proof.
  intros c self.
  assert (role_assigner_returned c (calls (step c self)) [Demo.solver_agent])
    as Hroster.
  { eexists _, _, _, _. split.
    - eapply (list_elem_of_lookup_2 _ 0%nat). vm_compute. reflexivity.
    - reflexivity. }
  split; [exact Hroster|].
  exact (decision_protocol_dispatch c self [Demo.solver_agent] Hroster).
Defined.

(** C1, as the specification states it, fails on two sessions with a
    dynamic decision maker.  With a MANAGER entry that is a list of actors
    (the type the parameter [manager] of [decision_making] is annotated
    with) both conditions of the claim hold and yet the manager-guided
    protocol is not invoked.  With no MANAGER entry the claim promises the
    standard protocol, and no protocol is invoked at all: the lookup
    raises [KeyError]. *)
Lemma decision_protocol_counterexample :
  let c := Demo.collaborators [Demo.solver_agent] [Demo.plan_a] (PyBool true) in
  let self1 := Demo.env Demo.dynamic
                 (Some (Demo.roles_with (AgentList [Demo.manager_agent]))) 0 false in
  let self2 := Demo.env Demo.dynamic (Some Demo.roles) 0 false in
  ¬ (manager_guided_invoked (calls (step c self1)) = true ↔
       component_class (decision_maker self1) = DynamicDecisionMaker_class ∧
       is_Some (role_mapping_get self1 MANAGER)) ∧
  ¬ (¬ (component_class (decision_maker self2) = DynamicDecisionMaker_class ∧
        is_Some (role_mapping_get self2 MANAGER)) →
     standard_invoked (calls (step c self2)) = true) ∧
  outcome (step c self2) = inl (KeyError MANAGER).
Proof.
  intros c self1 self2. split; [|split].
  - intros [_ Hinv].
    assert (manager_guided_invoked (calls (step c self1)) = true) as Hno.
    { apply Hinv. split; [reflexivity|]. by eexists. }
    vm_compute in Hno. discriminate.
  - intros Hstd.
    assert (standard_invoked (calls (step c self2)) = true) as Hno.
    { apply Hstd. intros [_ [e He]]. vm_compute in He. discriminate. }
    vm_compute in Hno. discriminate.
  - vm_compute. reflexivity.
Qed.

(** ** Every run of [step], stage by stage *)

Lemma role_assign_shape c advice self :
  (∃ e, role_assign c advice self = (inl e, self, [])) ∨
  (∃ assigner group_members,
      is_Some (agents self) ∧
      role_assign c advice self =
      (role_assigner_step c assigner group_members advice (task_description self),
       self,
       [CallRoleAssigner assigner group_members advice (task_description self)])).
Proof.
  destruct (role_assign_run c advice self) as [?|(a & g & Hag)]; [by left|].
  right. exists a, g. split; [|done].
  destruct (role_assign_calls c advice self _ _ _ _ Hag (list_elem_of_here _ _))
    as (_ & _ & _ & _ & _ & Hags).
  exact Hags.
Qed.

Lemma evaluate_shape c result self :
  is_Some (agents self) →
  (role_mapping_get self EVALUATION = None ∧
   evaluate c result self = (inl (KeyError EVALUATION), self, [])) ∨
  (∃ agent,
      role_mapping_get self EVALUATION = Some agent ∧
      evaluate c result self =
      (evaluator_step c agent result (task_description self),
       self,
       [CallEvaluator agent result (task_description self)])).
Proof.
  intros [m Hm]. unfold role_mapping_get, evaluate. rewrite Hm.
  destruct (m !! EVALUATION) as [agent|] eqn:Hev.
  - right. exists agent. split; [done|].
    erewrite bind_run by (rewrite agents_getitem_run, Hm, Hev; reflexivity).
    cbn beta iota. run_bind_refl. unfold call.
    by destruct (evaluator_step c agent result (task_description self))
      as [e|[score advice]].
  - left. split; [done|].
    by erewrite bind_run by (rewrite agents_getitem_run, Hm, Hev; reflexivity).
Qed.

Lemma decision_run_decided c self roster r t :
  is_Some (agents self) →
  decision_run c self roster r t →
  (t = [] ∧ r = inl (KeyError MANAGER) ∧ is_dynamic self = true ∧
   role_mapping_get self MANAGER = None) ∨
  (∃ kw previous_plan,
      t = [CallAstep roster kw (task_description self) previous_plan
                     "No advice yet."] ∧
      decided c self roster kw previous_plan r).
Proof.
  intros [m Hm] Hdec.
  destruct Hdec as [r t Hdyn Hrun|manager r t Hdyn Hget Hrun|e Hdyn Hget].
  - rewrite decision_making_run in Hrun. cbn in Hrun. injection Hrun as <- <-.
    right. exists None, "No advice yet.". split; [done|]. split; [done|].
    by left.
  - rewrite decision_making_run in Hrun. cbn zeta in Hrun.
    injection Hrun as <- <-. right.
    rewrite agents_getitem_run, Hm in Hget.
    destruct (m !! MANAGER) as [e|] eqn:Hlook; [|discriminate].
    injection Hget as ->. eexists _, _. split; [done|]. split; [done|].
    right. exists manager. unfold role_mapping_get. by rewrite Hm.
  - left. rewrite agents_getitem_run, Hm in Hget.
    destruct (m !! MANAGER) as [e'|] eqn:Hlook; [discriminate|].
    injection Hget as <-. unfold role_mapping_get. by rewrite Hm.
Qed.

(** Every run of [step] is one of the staged runs. *)
Lemma step_staged c self :
  staged c self (outcome (step c self)) (after (step c self))
         (calls (step c self)).
Proof.
  pose proof (step_round_run c self) as Hrun.
  assert (∀ roster t1,
             role_assign c "No advice yet." self = (inr roster, self, t1) →
             is_Some (agents self) ∧
             ∃ assigner g,
               t1 = [CallRoleAssigner assigner g "No advice yet."
                                      (task_description self)] ∧
               assigned c self assigner g roster) as Hassigned.
  { intros roster t1 Hra.
    destruct (role_assign_shape c "No advice yet." self)
      as [[e He]|(a & g & Hags & Hag)]; [congruence|].
    split; [done|]. rewrite Hag in Hra. injection Hra as Hans <-.
    exists a, g. split; [done|]. split; [by rewrite Hag, Hans|done]. }
  destruct Hrun as [e t1 Hra|agts t1 e t2 Hra Hdec|agts t1 t2 Hra Hdec
                    |agts t1 m ms t2 e Hra Hdec Hexe
                    |agts t1 m ms t2 result e t3 Hra Hdec Hexe Hev
                    |agts t1 m ms t2 result score advice t3 e Hra Hdec Hexe Hev Hacc
                    |agts t1 m ms t2 result score advice t3 accept Hra Hdec Hexe Hev Hacc].
  - destruct (role_assign_shape c "No advice yet." self)
      as [[e' He]|(a & g & _ & Hag)].
    + rewrite Hra in He. injection He as -> ->. by apply staged_role_mapping.
    + rewrite Hra in Hag. injection Hag as Hans ->.
      apply staged_role_assigner_raises; [|done]. by rewrite Hra, Hans.
  - destruct (Hassigned _ _ Hra) as (Hags & a & g & -> & Has).
    destruct (decision_run_decided _ _ _ _ _ Hags Hdec)
      as [(-> & [= ->] & Hdyn & Hnone)|(kw & pp & -> & Hd)].
    + by eapply staged_no_manager.
    + by eapply staged_decision_maker_raises.
  - destruct (Hassigned _ _ Hra) as (Hags & a & g & -> & Has).
    destruct (decision_run_decided _ _ _ _ _ Hags Hdec)
      as [(-> & [=] & _)|(kw & pp & -> & Hd)].
    by eapply staged_no_plan.
  - destruct (Hassigned _ _ Hra) as (Hags & a & g & -> & Has).
    destruct (decision_run_decided _ _ _ _ _ Hags Hdec)
      as [(-> & [=] & _)|(kw & pp & -> & Hd)].
    by eapply staged_executor_raises.
  - destruct (Hassigned _ _ Hra) as (Hags & a & g & -> & Has).
    destruct (decision_run_decided _ _ _ _ _ Hags Hdec)
      as [(-> & [=] & _)|(kw & pp & -> & Hd)].
    destruct (evaluate_shape c result self Hags)
      as [[Hnone He]|(agent & Hsome & He)]; rewrite Hev in He.
    + injection He as -> ->. simpl. by eapply staged_no_evaluator.
    + injection He as Hans ->. by eapply staged_evaluator_raises.
  - destruct (Hassigned _ _ Hra) as (Hags & a & g & -> & Has).
    destruct (decision_run_decided _ _ _ _ _ Hags Hdec)
      as [(-> & [=] & _)|(kw & pp & -> & Hd)].
    destruct (evaluate_shape c result self Hags)
      as [[Hnone He]|(agent & Hsome & He)]; rewrite Hev in He; [discriminate|].
    injection He as Hans ->. by eapply staged_score_raises.
  - destruct (Hassigned _ _ Hra) as (Hags & a & g & -> & Has).
    destruct (decision_run_decided _ _ _ _ _ Hags Hdec)
      as [(-> & [=] & _)|(kw & pp & -> & Hd)].
    destruct (evaluate_shape c result self Hags)
      as [[Hnone He]|(agent & Hsome & He)]; rewrite Hev in He; [discriminate|].
    injection He as Hans ->. by eapply staged_verdict.
Qed.

(** The stages are functions of the object and of the strategies'
    answers: what a stage was asked and what it answered is determined. *)
Lemma assigned_unique c self a g roster a' g' roster' :
  assigned c self a g roster → assigned c self a' g' roster' →
  a = a' ∧ g = g' ∧ roster = roster'.
Proof. intros [H1 _] [H2 _]. rewrite H1 in H2. by simplify_eq. Qed.

Lemma decided_unique c self roster kw pp ans kw' pp' ans' :
  decided c self roster kw pp ans → decided c self roster kw' pp' ans' →
  kw = kw' ∧ pp = pp' ∧ ans = ans'.
Proof.
  intros [-> H1] [-> H2].
  destruct H1 as [(D & -> & ->)|(m & D & Hm & -> & ->)],
           H2 as [(D' & -> & ->)|(m' & D' & Hm' & -> & ->)];
    try congruence; [done|].
  rewrite Hm in Hm'. by simplify_eq.
Qed.

Lemma decided_manager c self roster kw pp ans :
  decided c self roster kw pp ans →
  is_dynamic self = true → role_mapping_get self MANAGER = None → False.
Proof.
  intros [_ [(D & _)|(m & _ & Hm & _)]] Hdyn Hnone; congruence.
Qed.

Lemma evaluated_unique c self agent result ans agent' ans' :
  evaluated c self agent result ans → evaluated c self agent' result ans' →
  agent = agent' ∧ ans = ans'.
Proof. intros [H1 ->] [H2 ->]. rewrite H1 in H2. by simplify_eq. Qed.

Ltac staged_agree :=
  repeat match goal with
    | H1 : assigned _ _ _ _ _, H2 : assigned _ _ _ _ _ |- _ =>
        destruct (assigned_unique _ _ _ _ _ _ _ _ H1 H2) as (? & ? & ?);
        clear H2; simplify_eq
    | H1 : decided _ _ _ _ _ _, H2 : decided _ _ _ _ _ _ |- _ =>
        destruct (decided_unique _ _ _ _ _ _ _ _ _ H1 H2) as (? & ? & ?);
        clear H2; simplify_eq
    | H1 : evaluated _ _ _ _ _, H2 : evaluated _ _ _ _ _ |- _ =>
        destruct (evaluated_unique _ _ _ _ _ _ _ H1 H2) as (? & ?);
        clear H2; simplify_eq
    | H1 : decided _ _ _ _ _ _, H2 : is_dynamic _ = true,
        H3 : role_mapping_get _ MANAGER = None |- _ =>
        destruct (decided_manager _ _ _ _ _ _ H1 H2 H3)
    | H1 : evaluated _ _ _ _ _, H2 : role_mapping_get _ EVALUATION = None |- _ =>
        destruct H1 as [H1 _]; congruence
    | H1 : assigned _ _ _ _ _, H2 : role_assign _ _ _ = (inl _, _, _) |- _ =>
        destruct H1 as [H1 _]; congruence
    | H1 : executor_step ?c ?plan = _, H2 : executor_step ?c ?plan = _ |- _ =>
        rewrite H1 in H2; simplify_eq
    | H1 : accept_condition ?score = _, H2 : accept_condition ?score = _ |- _ =>
        rewrite H1 in H2; simplify_eq
    end.

(** A staged run is the run of [step]. *)
Lemma staged_step c self r s t :
  staged c self r s t → step c self = (r, s, t).
Proof.
  intros Hst. pose proof (step_staged c self) as Hrun.
  destruct (step c self) as [[r' s'] t']. unfold outcome, after, calls in Hrun.
  simpl in Hrun.
  destruct Hst; inversion Hrun; subst; staged_agree; try congruence.
Qed.

(** ** Failure behaviour *)

(** C7 (as the code has it).  When the role assigner returns an empty
    sequence of actors, [step] does not raise for it: the role assigner has
    been called once, first and never again, and the round goes on as the
    later stages decide, exactly as with any other roster.  A dynamic
    decision maker without a MANAGER entry ends it with [KeyError];
    otherwise the decision maker is called with the empty roster, and the
    round fails only when the decision maker raises, with [IndexError] when
    it returns no candidate, when the executor raises, with [KeyError] for a
    missing EVALUATION entry, when the evaluator raises, or with the
    [TypeError] of the acceptance rule, every time with the object
    unchanged and no further call; and when none of these happens [step]
    returns, with [cnt_turn] incremented by one.  From the execution on the
    statement is about an execution result that is a string, and it leaves
    open which exception [step] raises when a strategy raises. *)
Theorem empty_roster_proceeds c self :
  role_assigner_returned c (calls (step c self)) [] →
  ∃ assigner group_members,
    let task := task_description self in
    let call1 := CallRoleAssigner assigner group_members "No advice yet." task in
    role_assigner_step c assigner group_members "No advice yet." task = inr [] ∧
    length (List.filter is_role_assigner_call (calls (step c self))) = 1%nat ∧
    ((is_dynamic self = true ∧ role_mapping_get self MANAGER = None ∧
      step c self = (inl (KeyError MANAGER), self, [call1])) ∨
     (∃ kw previous_plan,
         let call2 := CallAstep [] kw task previous_plan "No advice yet." in
         decided c self [] kw previous_plan
                 (decision_maker_astep c [] kw task previous_plan
                                       "No advice yet.") ∧
         match decision_maker_astep c [] kw task previous_plan
                                    "No advice yet." with
         | inl _ => ∃ e, step c self = (inl e, self, [call1; call2])
         | inr [] => step c self = (inl IndexError, self, [call1; call2])
         | inr (m :: _) =>
             let call3 := CallExecutor (content m) in
             match executor_step c (content m) with
             | inl _ => ∃ e, step c self = (inl e, self, [call1; call2; call3])
             | inr (PyStr s) =>
                 let result := PyStr s in
                 match role_mapping_get self EVALUATION with
                 | None =>
                     step c self =
                     (inl (KeyError EVALUATION), self, [call1; call2; call3])
                 | Some agent =>
                     let call4 := CallEvaluator agent result task in
                     match evaluator_step c agent result task with
                     | inl _ =>
                         ∃ e, step c self =
                              (inl e, self, [call1; call2; call3; call4])
                     | inr (score, advice) =>
                         match accept_condition score with
                         | inl e =>
                             step c self =
                             (inl e, self, [call1; call2; call3; call4])
                         | inr accept =>
                             step c self =
                             (inr (result,
                                   round_logs [] (content m) result score
                                              advice accept,
                                   if accept then true else success self),
                              with_cnt_turn
                                (cnt_turn self + 1)
                                (if accept then with_success true self
                                 else self),
                              [call1; call2; call3; call4])
                         end
                     end
                 end
             | inr _ => True
             end
         end)).
Proof.
  intros (a & g & adv & task & Hin & Hans).
  pose proof (step_staged c self) as Hst.
  destruct (step c self) as [[r s] t] eqn:Hstep.
  unfold outcome, after, calls in Hst, Hin |- *. simpl in Hst, Hin |- *.
  destruct Hst as [e Hra|a0 g0 e Hra Hraise|a0 g0 roster Has Hdyn Hnone
                   |a0 g0 roster kw pp e Has Hd|a0 g0 roster kw pp Has Hd
                   |a0 g0 roster kw pp m ms e Has Hd Hexe
                   |a0 g0 roster kw pp m ms result Has Hd Hexe Hnone
                   |a0 g0 roster kw pp m ms result agent e Has Hd Hexe Hev
                   |a0 g0 roster kw pp m ms result agent score advice e
                      Has Hd Hexe Hev Hacc
                   |a0 g0 roster kw pp m ms result agent score advice accept
                      Has Hd Hexe Hev Hacc];
    split_trace; simplify_eq; try congruence;
    (assert (roster = []) as -> by (destruct Has as [_ Has]; congruence));
    exists a0, g0; (split; [exact Hans|]); (split; [reflexivity|]);
    try (left; done); right; exists kw, pp;
    pose proof Hd as [Hdm _]; (split; [by rewrite <- Hdm|]);
    rewrite <- Hdm; try done; try (by eexists);
    cbn zeta; rewrite Hexe; try done; try (by eexists);
    destruct result; try exact I;
    try (rewrite Hnone; done);
    destruct Hev as [-> Hev]; cbn zeta; rewrite <- Hev; try done;
    try (by eexists);
    by rewrite Hacc.
Qed.

Lemma empty_roster_proceeds_witness :
  let c := Demo.collaborators [] [Demo.plan_a] (PyBool false) in
  let self := Demo.env Demo.vertical (Some Demo.roles) 2 false in
  role_assigner_returned c (calls (step c self)) [] ∧
  ∃ assigner group_members,
    step c self =
    (inr (PyStr "plan A",
          round_logs [] "plan A" (PyStr "plan A") (PyBool false) "advice" false,
          false),
     with_cnt_turn 3 self,
     [CallRoleAssigner assigner group_members "No advice yet." "task";
      CallAstep [] None "task" "No advice yet." "No advice yet.";
      CallExecutor "plan A";
      CallEvaluator (OneAgent Demo.evaluator_agent) (PyStr "plan A") "task"]).
Proof.
  intros c self.
  assert (role_assigner_returned c (calls (step c self)) []) as Hroster.
  { eexists _, _, _, _. split.
    - eapply (list_elem_of_lookup_2 _ 0%nat). vm_compute. reflexivity.
    - reflexivity. }
  split; [exact Hroster|].
  destruct (empty_roster_proceeds c self Hroster)
    as (assigner & group_members & _ & _ & [(Hdyn & _)|(kw & pp & Hd & Hrun)]).
  - vm_compute in Hdyn. discriminate.
  - destruct Hd as [_ [(_ & -> & ->)|(manager & Hdyn & _)]];
      [|vm_compute in Hdyn; discriminate].
    exists assigner, group_members. exact Hrun.
Defined.

(** C7, as the specification states it, fails: with a role assigner that
    returns no actor and later stages that succeed, [step] raises nothing,
    neither an [EmptyRosterError] nor anything else; it returns and has
    incremented [cnt_turn]. *)
Lemma empty_roster_counterexample :
  let c := Demo.collaborators [] [Demo.plan_a] (PyBool false) in
  let self := Demo.env Demo.vertical (Some Demo.roles) 2 false in
  role_assigner_returned c (calls (step c self)) [] ∧
  ¬ (outcome (step c self) = inl (Raised "EmptyRosterError") ∧
     cnt_turn (after (step c self)) = cnt_turn self) ∧
  (∀ e, outcome (step c self) ≠ inl e) ∧
  cnt_turn (after (step c self)) = 3.
Proof.
  intros c self. split; [|split; [|split]].
  - eexists _, _, _, _. split.
    + eapply (list_elem_of_lookup_2 _ 0%nat). vm_compute. reflexivity.
    + reflexivity.
  - intros [Hraise _]. vm_compute in Hraise. discriminate.
  - intros e Hraise. vm_compute in Hraise. discriminate.
  - vm_compute. reflexivity.
Qed.

(** C8 (as the code has it).  When the decision maker returns an empty
    sequence of plan candidates, [plan[0]] raises [IndexError]: the round
    fails with it and leaves the object, hence [cnt_turn] and [success],
    as it found it. *)
Theorem empty_plan_raises_IndexError c self :
  decision_maker_returned c (calls (step c self)) [] →
  outcome (step c self) = inl IndexError ∧
  cnt_turn (after (step c self)) = cnt_turn self ∧
  success (after (step c self)) = success self.
Proof.
  intros (agts & kw & task & pp & adv & Hin & Hans).
  pose proof (step_round_run c self) as Hrun.
  assert (outcome (step c self) = inl IndexError ∧ after (step c self) = self)
    as [-> ->]; [|done].
  destruct Hrun; split_trace; try stage_of_call; simplify_eq; try done;
    congruence.
Qed.

Lemma empty_plan_raises_IndexError_witness :
  let c := Demo.collaborators [Demo.solver_agent] [] (PyBool true) in
  let self := Demo.env Demo.vertical (Some Demo.roles) 5 false in
  decision_maker_returned c (calls (step c self)) [] ∧
  outcome (step c self) = inl IndexError ∧
  cnt_turn (after (step c self)) = 5 ∧
  success (after (step c self)) = false.
Proof.
  intros c self.
  assert (decision_maker_returned c (calls (step c self)) []) as Hplans.
  { eexists _, _, _, _, _. split.
    - eapply (list_elem_of_lookup_2 _ 1%nat). vm_compute. reflexivity.
    - reflexivity. }
  split; [exact Hplans|].
  exact (empty_plan_raises_IndexError c self Hplans).
Defined.

(** C8, as the specification states it, fails on the class of the error:
    the sources define and raise no [EmptyPlanError]; what the failing round
    raises is Python's [IndexError]. *)
Lemma empty_plan_counterexample :
  let c := Demo.collaborators [Demo.solver_agent] [] (PyBool true) in
  let self := Demo.env Demo.vertical (Some Demo.roles) 5 false in
  decision_maker_returned c (calls (step c self)) [] ∧
  outcome (step c self) ≠ inl (Raised "EmptyPlanError") ∧
  outcome (step c self) = inl IndexError.
Proof.
  intros c self. split; [|split].
  - eexists _, _, _, _, _. split.
    + eapply (list_elem_of_lookup_2 _ 1%nat). vm_compute. reflexivity.
    + reflexivity.
  - intros Hraise. vm_compute in Hraise. discriminate.
  - vm_compute. reflexivity.
Qed.

(** ** Scores of other shapes *)

(** C9 (as the code has it).  When the evaluator's score is [None] or any
    value that is neither a boolean nor a list or tuple (a string, a
    number), [step] does not raise: the round is rejected and completes,
    with [success] as it was and [cnt_turn] incremented. *)
Theorem unrecognized_score_rejects c self score advice :
  evaluator_returned c (calls (step c self)) score advice →
  isinstance_bool score = false →
  isinstance_list_tuple score = false →
  ∃ result logs,
    outcome (step c self) = inr (result, logs, success self) ∧
    last logs = Some reject_entry ∧
    success (after (step c self)) = success self ∧
    cnt_turn (after (step c self)) = cnt_turn self + 1.
Proof.
  intros Hev Hbool Hseq.
  pose proof (step_verdict c self score advice Hev) as Hverdict.
  assert (accept_condition score = inr false) as Hacc.
  { unfold accept_condition. rewrite Hbool, Hseq. by destruct (is_not_None score). }
  rewrite Hacc in Hverdict.
  destruct Hverdict as [(result & logs & -> & Hlast) ->].
  by exists result, logs.
Qed.

Lemma unrecognized_score_rejects_witness :
  let c := Demo.collaborators [Demo.solver_agent] [Demo.plan_a] PyNone in
  let self := Demo.env Demo.vertical (Some Demo.roles) 0 false in
  evaluator_returned c (calls (step c self)) PyNone "advice" ∧
  isinstance_bool PyNone = false ∧
  isinstance_list_tuple PyNone = false ∧
  ∃ result logs,
    outcome (step c self) = inr (result, logs, success self) ∧
    last logs = Some reject_entry ∧
    success (after (step c self)) = success self ∧
    cnt_turn (after (step c self)) = 0 + 1.
Proof.
  intros c self.
  assert (evaluator_returned c (calls (step c self)) PyNone "advice") as Hev.
  { eexists _, _, _. split.
    - eapply (list_elem_of_lookup_2 _ 3%nat). vm_compute. reflexivity.
    - reflexivity. }
  split; [exact Hev|]. split; [reflexivity|]. split; [reflexivity|].
  exact (unrecognized_score_rejects c self PyNone "advice" Hev eq_refl eq_refl).
Defined.

(** C9, as the specification states it, fails on a sequence with an
    element that is not a number: on the score [[9, "a"]] the comparison
    ["a" >= 8] raises [TypeError] and [step] raises with it instead of
    rejecting. *)
Lemma malformed_score_counterexample :
  let score := PyList [PyInt 9; PyStr "a"] in
  let c := Demo.collaborators [Demo.solver_agent] [Demo.plan_a] score in
  let self := Demo.env Demo.vertical (Some Demo.roles) 0 false in
  evaluator_returned c (calls (step c self)) score "advice" ∧
  ¬ good_score score ∧
  ¬ (∃ x, outcome (step c self) = inr x) ∧
  outcome (step c self) = inl TypeError.
Proof.
  intros score c self. split; [|split; [|split]].
  - eexists _, _, _. split.
    + eapply (list_elem_of_lookup_2 _ 3%nat). vm_compute. reflexivity.
    + reflexivity.
  - intros Hgood. apply accept_condition_true in Hgood.
    vm_compute in Hgood. discriminate.
  - intros [x Hx]. vm_compute in Hx. discriminate.
  - vm_compute. reflexivity.
Qed.

(** C10. When the evaluator returns an empty list or tuple as the score,
    the round is accepted: [step] returns with [success] true. *)
Theorem empty_score_accepts c self score advice :
  evaluator_returned c (calls (step c self)) score advice →
  score = PyList [] ∨ score = PyTuple [] →
  ∃ result logs,
    outcome (step c self) = inr (result, logs, true) ∧
    last logs = Some accept_entry ∧
    success (after (step c self)) = true.
Proof.
  intros Hev Hempty.
  pose proof (step_verdict c self score advice Hev) as Hverdict.
  assert (accept_condition score = inr true) as Hacc
    by by destruct Hempty as [-> | ->].
  rewrite Hacc in Hverdict.
  destruct Hverdict as [(result & logs & -> & Hlast) ->].
  by exists result, logs.
Qed.

Lemma empty_score_accepts_witness :
  let c := Demo.collaborators [Demo.solver_agent] [Demo.plan_a] (PyTuple []) in
  let self := Demo.env Demo.vertical (Some Demo.roles) 0 false in
  evaluator_returned c (calls (step c self)) (PyTuple []) "advice" ∧
  (PyTuple [] = PyList [] ∨ PyTuple [] = PyTuple []) ∧
  ∃ result logs,
    outcome (step c self) = inr (result, logs, true) ∧
    last logs = Some accept_entry ∧
    success (after (step c self)) = true.
Proof.
  intros c self.
  assert (evaluator_returned c (calls (step c self)) (PyTuple []) "advice") as Hev.
  { eexists _, _, _. split.
    - eapply (list_elem_of_lookup_2 _ 3%nat). vm_compute. reflexivity.
    - reflexivity. }
  split; [exact Hev|]. split; [by right|].
  exact (empty_score_accepts c self (PyTuple []) "advice" Hev (or_intror eq_refl)).
Defined.

(** ** Scenarios *)

(** The two rating sequences of the specification. *)
Example ratings_9_8_10_accepted :
  accept_condition (PyList [PyInt 9; PyInt 8; PyInt 10]) = inr true.
Proof. reflexivity. Qed.

Example ratings_9_7_10_rejected :
  accept_condition (PyList [PyInt 9; PyInt 7; PyInt 10]) = inr false.
Proof. reflexivity. Qed.

(** The list comprehension is evaluated in full before [all] looks at it:
    a low rating in front does not hide a malformed one behind it. *)
Example ratings_7_then_string_raise :
  accept_condition (PyTuple [PyInt 7; PyStr "a"]) = inl TypeError.
Proof. reflexivity. Qed.

(** One accepted round ends the session. *)
Example accepted_round_is_done :
  let c := Demo.collaborators [Demo.solver_agent] [Demo.plan_a] (PyBool true) in
  let self := run_ops [OpStep c] (Demo.env Demo.vertical (Some Demo.roles) 0 false) in
  cnt_turn self = 1 ∧ success self = true ∧ outcome (is_done self) = inr true.
Proof. vm_compute. done. Qed.

(** Three rejected rounds exhaust the last three turns of the budget: the
    session is done without success. *)
Example turn_exhaustion :
  let c := Demo.collaborators [Demo.solver_agent] [Demo.plan_a] (PyBool false) in
  let self := run_ops [OpStep c; OpStep c; OpStep c]
                      (Demo.env Demo.vertical (Some Demo.roles) 7 false) in
  cnt_turn self = 10 ∧ success self = false ∧ outcome (is_done self) = inr true.
Proof. vm_compute. done. Qed.

(** With any decision maker but the dynamic one, [step] passes three
    positional arguments to [decision_making]: the decision maker receives
    the advice as its previous plan. *)
Example standard_call_arguments :
  let c := Demo.collaborators [Demo.solver_agent] [Demo.plan_a] (PyBool true) in
  let self := Demo.env Demo.vertical
                (Some (Demo.roles_with (OneAgent Demo.manager_agent))) 0 false in
  calls (step c self) !! 1%nat =
  Some (CallAstep [Demo.solver_agent] None "task" "No advice yet." "No advice yet.").
Proof. vm_compute. reflexivity. Qed.

(** Only the first plan candidate reaches the executor. *)
Example first_candidate_only :
  let c := Demo.collaborators [Demo.solver_agent]
             [Demo.plan_a; {| content := "plan B" |}] (PyBool true) in
  let self := Demo.env Demo.vertical (Some Demo.roles) 0 false in
  calls (step c self) !! 2%nat = Some (CallExecutor "plan A").
Proof. vm_compute. reflexivity. Qed.

(** * Further properties of the round *)

(** ** What a round does and does not do *)

(** X1. A round that raises, at whatever stage and for whatever reason,
    leaves the controller object exactly as it found it. *)
Theorem step_raise_restores c self e :
  outcome (step c self) = inl e → after (step c self) = self.
Proof.
  intros Hout. pose proof (step_round_run c self) as Hrun.
  rewrite Hout in Hrun. by apply round_run_raise_frame in Hrun.
Qed.

Lemma step_raise_restores_witness :
  let self := Demo.env Demo.vertical (Some Demo.roles) 4 true in
  outcome (step Demo2.failing_executor self) = inl (Raised "RuntimeError") ∧
  after (step Demo2.failing_executor self) = self.
Proof.
  intros self.
  assert (outcome (step Demo2.failing_executor self) = inl (Raised "RuntimeError"))
    as Hout by (vm_compute; reflexivity).
  split; [exact Hout|].
  exact (step_raise_restores Demo2.failing_executor self _ Hout).
Defined.

(** X2. The calls of a round are an initial segment of: role assigner,
    decision maker, executor, evaluator.  No strategy is called twice, none
    out of order, none after a stage was skipped. *)
Theorem step_calls_in_stage_order c self :
  stage_of <$> calls (step c self) `prefix_of` [0; 1; 2; 3]%nat.
Proof.
  destruct (step_staged c self); simpl; by eexists.
Qed.

(** X3. In a round that returns, every stage received what the stage
    before it produced: the decision maker the roster of the role assigner,
    the executor the content of the first plan candidate, the evaluator the
    executor's result.  [step] returns that same result, and its log holds
    the roster, the plan, the result, the evaluation and the verdict, in
    this order. *)
Theorem step_data_flow c self result logs ok :
  outcome (step c self) = inr (result, logs, ok) →
  ∃ assigner group_members roster kw previous_plan m ms agent score advice accept,
    calls (step c self) =
      [CallRoleAssigner assigner group_members "No advice yet."
                        (task_description self);
       CallAstep roster kw (task_description self) previous_plan "No advice yet.";
       CallExecutor (content m);
       CallEvaluator agent result (task_description self)] ∧
    role_assigner_step c assigner group_members "No advice yet."
                       (task_description self) = inr roster ∧
    decision_maker_astep c roster kw (task_description self) previous_plan
                         "No advice yet." = inr (m :: ms) ∧
    executor_step c (content m) = inr result ∧
    evaluator_step c agent result (task_description self) = inr (score, advice) ∧
    accept_condition score = inr accept ∧
    logs = [LogModule "Role Assigner" (ContentAgents roster);
            LogModule "Decision Maker" (ContentStr (content m));
            LogModule "Executor" (ContentAny result);
            LogAgent "evaluator" (ContentEvaluation score advice);
            if accept then accept_entry else reject_entry].
Proof.
  intros Hout. pose proof (step_staged c self) as Hst. rewrite Hout in Hst.
  inversion Hst as [| | | | | | | | |assigner g roster kw pp m ms result' agent
                                     score advice accept [_ Hra] [Hdm _] Hexe
                                     [_ Hev] Hacc]; subst.
  by exists assigner, g, roster, kw, pp, m, ms, agent, score, advice, accept.
Qed.

Lemma step_data_flow_witness :
  let c := Demo.collaborators [Demo.solver_agent; Demo.critic_agent]
             [Demo.plan_a] (PyList [PyInt 9; PyInt 3]) in
  let self := Demo.env Demo.vertical (Some Demo.roles) 0 false in
  ∃ result logs ok,
    outcome (step c self) = inr (result, logs, ok) ∧
    ∃ assigner group_members roster kw previous_plan m ms agent score advice accept,
      calls (step c self) =
        [CallRoleAssigner assigner group_members "No advice yet."
                          (task_description self);
         CallAstep roster kw (task_description self) previous_plan "No advice yet.";
         CallExecutor (content m);
         CallEvaluator agent result (task_description self)] ∧
      role_assigner_step c assigner group_members "No advice yet."
                         (task_description self) = inr roster ∧
      decision_maker_astep c roster kw (task_description self) previous_plan
                           "No advice yet." = inr (m :: ms) ∧
      executor_step c (content m) = inr result ∧
      evaluator_step c agent result (task_description self) = inr (score, advice) ∧
      accept_condition score = inr accept ∧
      logs = [LogModule "Role Assigner" (ContentAgents roster);
              LogModule "Decision Maker" (ContentStr (content m));
              LogModule "Executor" (ContentAny result);
              LogAgent "evaluator" (ContentEvaluation score advice);
              if accept then accept_entry else reject_entry].
Proof.
  intros c self. eexists _, _, _.
  assert (∀ x, x = outcome (step c self) → outcome (step c self) = x)
    as Hx by done.
  split; [apply Hx; vm_compute; reflexivity|].
  eapply (step_data_flow c self). apply Hx. vm_compute. reflexivity.
Defined.

(** X4. Of the plan candidates the decision maker returns, only the first
    reaches the executor: the executor is called exactly once, with the
    content of the first candidate, however many candidates follow and
    however the round ends afterwards. *)
Theorem executor_gets_first_plan_only c self m ms :
  decision_maker_returned c (calls (step c self)) (m :: ms) →
  List.filter is_executor_call (calls (step c self)) = [CallExecutor (content m)].
Proof.
  intros (agts & kw & task & pp & adv & Hin & Hans).
  destruct (step_staged c self)
    as [| | |? ? ? ? ? ? _ [Hdm _]|? ? ? ? ? _ [Hdm _]
        |? ? ? ? ? ? ? ? _ [Hdm _]|? ? ? ? ? ? ? ? _ [Hdm _]
        |? ? ? ? ? ? ? ? ? ? _ [Hdm _]|? ? ? ? ? ? ? ? ? ? ? ? _ [Hdm _]
        |? ? ? ? ? ? ? ? ? ? ? ? _ [Hdm _]];
    split_trace; simplify_eq; rewrite Hans in Hdm; by simplify_eq.
Qed.

Lemma executor_gets_first_plan_only_witness :
  let plan_b := {| content := "plan B" |} in
  let c := Demo.collaborators [Demo.solver_agent] [Demo.plan_a; plan_b]
             (PyBool true) in
  let self := Demo.env Demo.vertical (Some Demo.roles) 0 false in
  decision_maker_returned c (calls (step c self)) [Demo.plan_a; plan_b] ∧
  List.filter is_executor_call (calls (step c self)) = [CallExecutor "plan A"].
Proof.
  intros plan_b c self.
  assert (decision_maker_returned c (calls (step c self)) [Demo.plan_a; plan_b])
    as Hplans.
  { eexists _, _, _, _, _. split.
    - eapply (list_elem_of_lookup_2 _ 1%nat). vm_compute. reflexivity.
    - reflexivity. }
  split; [exact Hplans|].
  exact (executor_gets_first_plan_only c self Demo.plan_a [plan_b] Hplans).
Defined.

(** X5. No feedback reaches the strategies: in every round, whatever the
    object has been through, the role assigner and the decision maker are
    given the advice "No advice yet.", and the decision maker is given the
    previous plan "No solution yet." when it is the dynamic one and, the
    arguments of the other call site being shifted by one, "No advice yet."
    when it is not. *)
Theorem step_carries_no_feedback c self :
  Forall (carries_no_feedback self) (calls (step c self)).
Proof.
  destruct (step_staged c self)
    as [| | |? ? ? ? ? ? _ [_ Hd]|? ? ? ? ? _ [_ Hd]
        |? ? ? ? ? ? ? ? _ [_ Hd]|? ? ? ? ? ? ? ? _ [_ Hd]
        |? ? ? ? ? ? ? ? ? ? _ [_ Hd]|? ? ? ? ? ? ? ? ? ? ? ? _ [_ Hd]
        |? ? ? ? ? ? ? ? ? ? ? ? _ [_ Hd]];
    repeat constructor;
    destruct Hd as [(-> & _ & ->)|(manager & -> & _ & -> & _)]; done.
Qed.



(** ** The role mapping *)

Lemma role_assign_cases c advice self :
  role_assign c advice self =
  match agents self with
  | None => (inl TypeError, self, [])
  | Some m =>
      match m !! ROLE_ASSIGNMENT, m !! SOLVER, m !! CRITIC with
      | None, _, _ => (inl (KeyError ROLE_ASSIGNMENT), self, [])
      | Some _, None, _ => (inl (KeyError SOLVER), self, [])
      | Some _, Some _, None => (inl (KeyError CRITIC), self, [])
      | Some _, Some _, Some (OneAgent _) => (inl TypeError, self, [])
      | Some assigner, Some solver, Some (AgentList critics) =>
          (role_assigner_step c assigner (solver :: (OneAgent <$> critics))
                              advice (task_description self),
           self,
           [CallRoleAssigner assigner (solver :: (OneAgent <$> critics))
                             advice (task_description self)])
      end
  end.
Proof.
  unfold role_assign, mbind, M_bind, bind.
  rewrite !agents_getitem_run.
  destruct (agents self) as [m|]; [|done].
  destruct (m !! ROLE_ASSIGNMENT) as [assigner|]; [|done].
  destruct (m !! SOLVER) as [solver|]; [|done].
  destruct (m !! CRITIC) as [[critic|critics]|]; [done| |done].
  simpl. unfold call.
  by destruct (role_assigner_step c assigner _ advice (task_description self)).
Qed.

Lemma bind_calls {A B} (m : M A) (k : A → M B) self a self1 t1 :
  m self = (inr a, self1, t1) →
  calls ((m ≫= k) self) = t1 ++ calls (k a self1).
Proof.
  intros Hm. unfold mbind, M_bind, bind, calls. rewrite Hm.
  by destruct (k a self1) as [[r' s'] t'].
Qed.

Lemma step_after_role_assign c self r t :
  role_assign c "No advice yet." self = (r, self, t) →
  match r with
  | inl e => step c self = (inl e, self, t)
  | inr _ => ∃ t', calls (step c self) = t ++ t'
  end.
Proof.
  intros Hra. unfold step. destruct r as [e|roster].
  - by run_bind Hra.
  - rewrite (bind_calls _ _ _ _ _ _ Hra). by eexists.
Qed.

(** X7. [step] subscripts the role mapping unguarded.  With no role
    mapping at all it raises [TypeError]; with ROLE_ASSIGNMENT, SOLVER or
    CRITIC missing it raises [KeyError] for the first one missing, in this
    order; with CRITIC mapped to a single actor rather than a list it raises
    [TypeError]; in all these cases no strategy has been called.  Otherwise
    its first call is to the role assigner, with the ROLE_ASSIGNMENT entry
    and the candidates [[solver] + critics], critics in their order. *)
Theorem step_role_mapping c self :
  match agents self with
  | None => step c self = (inl TypeError, self, [])
  | Some m =>
      match m !! ROLE_ASSIGNMENT, m !! SOLVER, m !! CRITIC with
      | None, _, _ => step c self = (inl (KeyError ROLE_ASSIGNMENT), self, [])
      | Some _, None, _ => step c self = (inl (KeyError SOLVER), self, [])
      | Some _, Some _, None => step c self = (inl (KeyError CRITIC), self, [])
      | Some _, Some _, Some (OneAgent _) =>
          step c self = (inl TypeError, self, [])
      | Some assigner, Some solver, Some (AgentList critics) =>
          head (calls (step c self)) =
          Some (CallRoleAssigner assigner (solver :: (OneAgent <$> critics))
                                 "No advice yet." (task_description self))
      end
  end.
Proof.
  pose proof (role_assign_cases c "No advice yet." self) as Hra.
  destruct (agents self) as [m|];
    [|exact (step_after_role_assign c self _ _ Hra)].
  destruct (m !! ROLE_ASSIGNMENT) as [assigner|];
    [|exact (step_after_role_assign c self _ _ Hra)].
  destruct (m !! SOLVER) as [solver|];
    [|exact (step_after_role_assign c self _ _ Hra)].
  destruct (m !! CRITIC) as [[critic|critics]|];
    [exact (step_after_role_assign c self _ _ Hra)|
    |exact (step_after_role_assign c self _ _ Hra)].
  pose proof (step_after_role_assign c self _ _ Hra) as Hstep.
  destruct (role_assigner_step c assigner _ "No advice yet." (task_description self));
    [by rewrite Hstep|].
  destruct Hstep as [t' ->]. done.
Qed.

(** X8. A role mapping without an EVALUATION entry is noticed late.  No
    round of such a controller returns; and the entry is looked up only
    after the execution: when the role assigner has returned a roster, the
    decision maker a candidate and the executor a string, the round has made
    these three calls, the executor's last, before it raises [KeyError] for
    EVALUATION, and it leaves the object as it found it. *)
Theorem missing_evaluator_found_after_execution c self :
  role_mapping_get self EVALUATION = None →
  (∃ e, outcome (step c self) = inl e) ∧
  (∀ assigner group_members roster kw previous_plan m ms s,
      assigned c self assigner group_members roster →
      decided c self roster kw previous_plan (inr (m :: ms)) →
      executor_step c (content m) = inr (PyStr s) →
      step c self =
      (inl (KeyError EVALUATION), self,
       [CallRoleAssigner assigner group_members "No advice yet."
                         (task_description self);
        CallAstep roster kw (task_description self) previous_plan
                  "No advice yet.";
        CallExecutor (content m)])).
Proof.
  intros Hnone. split.
  - destruct (step_staged c self)
      as [| | | | | |
          |? ? ? ? ? ? ? ? ? ? _ _ _ [Hsome _]
          |? ? ? ? ? ? ? ? ? ? ? ? _ _ _ [Hsome _]
          |? ? ? ? ? ? ? ? ? ? ? ? _ _ _ [Hsome _]];
      try congruence; by eexists.
  - intros assigner g roster kw pp m ms s Has Hd Hexe.
    apply staged_step. by eapply staged_no_evaluator.
Qed.

Lemma missing_evaluator_found_after_execution_witness :
  let c := Demo.collaborators [Demo.solver_agent] [Demo.plan_a] (PyBool true) in
  let self := Demo.env Demo.vertical (Some Demo2.roles_without_evaluator) 0 false in
  let assigner := OneAgent Demo.assigner_agent in
  let group_members := [OneAgent Demo.solver_agent; OneAgent Demo.critic_agent] in
  role_mapping_get self EVALUATION = None ∧
  assigned c self assigner group_members [Demo.solver_agent] ∧
  decided c self [Demo.solver_agent] None "No advice yet." (inr [Demo.plan_a]) ∧
  executor_step c (content Demo.plan_a) = inr (PyStr "plan A") ∧
  step c self =
  (inl (KeyError EVALUATION), self,
   [CallRoleAssigner assigner group_members "No advice yet."
                     (task_description self);
    CallAstep [Demo.solver_agent] None (task_description self) "No advice yet."
              "No advice yet.";
    CallExecutor (content Demo.plan_a)]).
Proof.
  intros c self assigner group_members.
  assert (role_mapping_get self EVALUATION = None) as Hnone
    by (vm_compute; reflexivity).
  assert (assigned c self assigner group_members [Demo.solver_agent]) as Has
    by (split; vm_compute; reflexivity).
  assert (decided c self [Demo.solver_agent] None "No advice yet."
                  (inr [Demo.plan_a])) as Hd.
  { split; [reflexivity|]. left. repeat split. }
  assert (executor_step c (content Demo.plan_a) = inr (PyStr "plan A")) as Hexe
    by reflexivity.
  split; [exact Hnone|]. split; [exact Has|]. split; [exact Hd|].
  split; [exact Hexe|].
  exact (proj2 (missing_evaluator_found_after_execution c self Hnone)
               assigner group_members [Demo.solver_agent] None "No advice yet."
               Demo.plan_a [] "plan A" Has Hd Hexe).
Defined.

(** ** Ratings that are not numbers *)

Lemma list_comprehension_ge_8 l :
  match list_comprehension (λ s, py_ge s 8) l with
  | inl e => e = TypeError ∧ forallb is_number l = false
  | inr _ => forallb is_number l = true
  end.
Proof.
  induction l as [|s l IH]; [done|]. simpl.
  destruct s as [|b|z|?|?|?]; simpl; try done;
    by destruct (list_comprehension _ l).
Qed.

Lemma accept_condition_cases score :
  match accept_condition score with
  | inl e =>
      e = TypeError ∧ isinstance_list_tuple score = true ∧
      forallb is_number (iter score) = false
  | inr _ =>
      isinstance_list_tuple score = false ∨
      forallb is_number (iter score) = true
  end.
Proof.
  destruct score as [|[|]|z|s|l|l]; unfold accept_condition; simpl; auto;
    pose proof (list_comprehension_ge_8 l) as Hl;
    destruct (list_comprehension _ l); intuition.
Qed.

(** X9. Once the evaluator has answered, the round returns unless the
    score is a list or tuple holding something that is not a number: then,
    whatever the other ratings are and wherever the offending element
    stands, [step] raises [TypeError] and leaves the object untouched. *)
Theorem score_with_non_number_raises c self score advice :
  evaluator_returned c (calls (step c self)) score advice →
  if isinstance_list_tuple score && negb (forallb is_number (iter score))
  then outcome (step c self) = inl TypeError ∧ after (step c self) = self
  else ∃ x, outcome (step c self) = inr x.
Proof.
  intros Hev.
  pose proof (step_verdict c self score advice Hev) as Hverdict.
  pose proof (accept_condition_cases score) as Hcases.
  destruct (accept_condition score) as [e|accept].
  - destruct Hcases as (-> & -> & ->). simpl. done.
  - destruct Hverdict as [(result & logs & -> & _) _].
    destruct Hcases as [-> | ->]; simpl; rewrite ?andb_false_r; by eexists.
Qed.

Lemma score_with_non_number_raises_witness :
  let score := PyTuple [PyInt 2; PyNone; PyInt 9] in
  let c := Demo.collaborators [Demo.solver_agent] [Demo.plan_a] score in
  let self := Demo.env Demo.vertical (Some Demo.roles) 0 false in
  evaluator_returned c (calls (step c self)) score "advice" ∧
  outcome (step c self) = inl TypeError ∧ after (step c self) = self.
Proof.
  intros score c self.
  assert (evaluator_returned c (calls (step c self)) score "advice") as Hev.
  { eexists _, _, _. split.
    - eapply (list_elem_of_lookup_2 _ 3%nat). vm_compute. reflexivity.
    - reflexivity. }
  split; [exact Hev|].
  exact (score_with_non_number_raises c self score "advice" Hev).
Defined.

(** ** More on what [step] returns and passes *)

(** X18. The flag [step] returns is the [success] of the object, not the
    verdict of the round: on a controller that has succeeded before, every
    round that returns returns true, rejected rounds included. *)
Theorem step_flag_is_not_the_verdict c self result logs ok :
  success self = true →
  outcome (step c self) = inr (result, logs, ok) →
  ok = true.
Proof.
  intros Hs Hout. pose proof (step_round_run c self) as Hrun.
  rewrite Hout in Hrun.
  apply round_run_return in Hrun as (accept & -> & Hok & _). simpl in Hok.
  rewrite Hok. by destruct accept.
Qed.

Lemma step_flag_is_not_the_verdict_witness :
  let c := Demo.collaborators [Demo.solver_agent] [Demo.plan_a] (PyBool false) in
  let self := Demo.env Demo.vertical (Some Demo.roles) 1 true in
  ∃ result logs ok,
    success self = true ∧
    outcome (step c self) = inr (result, logs, ok) ∧
    last logs = Some reject_entry ∧
    ok = true.
Proof.
  intros c self. eexists _, _, _.
  assert (∀ x, x = outcome (step c self) → outcome (step c self) = x)
    as Hx by done.
  split; [reflexivity|].
  split; [apply Hx; vm_compute; reflexivity|].
  split; [reflexivity|].
  eapply (step_flag_is_not_the_verdict c self); [reflexivity|].
  apply Hx. vm_compute. reflexivity.
Defined.

(** X19. In the manager-guided call the manager handed to the decision
    maker is the MANAGER entry of the role mapping itself, a single actor
    of class [ManagerAgent], and the previous plan is "No solution yet.". *)
Theorem manager_argument_is_the_entry c self agts manager task previous_plan advice :
  CallAstep agts (Some manager) task previous_plan advice ∈ calls (step c self) →
  ∃ a,
    manager = ManagerEntry (OneAgent a) ∧
    role_mapping_get self MANAGER = Some (OneAgent a) ∧
    agent_class a = ManagerAgent_class ∧
    previous_plan = "No solution yet.".
Proof.
  intros Hin.
  assert (∀ roster kw pp ans,
             decided c self roster kw pp ans →
             kw = Some manager → pp = previous_plan →
             ∃ a, manager = ManagerEntry (OneAgent a) ∧
                  role_mapping_get self MANAGER = Some (OneAgent a) ∧
                  agent_class a = ManagerAgent_class ∧
                  previous_plan = "No solution yet.") as Hdecided.
  { intros roster kw pp ans [_ [(_ & -> & _)|(e & _ & Hget & -> & ->)]] Hkw <-;
      [done|].
    pose proof (manager_entry_test e) as Htest.
    destruct (String.eqb (manager_type_str (ManagerEntry e)) ManagerAgent_class);
      [|done].
    destruct Htest as [(a & -> & Ha) _]; [done|].
    injection Hkw as <-. by exists a. }
  destruct (step_staged c self)
    as [| | |? ? ? ? ? ? _ Hd|? ? ? ? ? _ Hd
        |? ? ? ? ? ? ? ? _ Hd|? ? ? ? ? ? ? ? _ Hd
        |? ? ? ? ? ? ? ? ? ? _ Hd|? ? ? ? ? ? ? ? ? ? ? ? _ Hd
        |? ? ? ? ? ? ? ? ? ? ? ? _ Hd];
    split_trace; simplify_eq; by eapply Hdecided.
Qed.

Lemma manager_argument_is_the_entry_witness :
  let c := Demo.collaborators [Demo.solver_agent] [Demo.plan_a] (PyBool true) in
  let self := Demo.env Demo.dynamic
                (Some (Demo.roles_with (OneAgent Demo.manager_agent))) 0 false in
  CallAstep [Demo.solver_agent] (Some (ManagerEntry (OneAgent Demo.manager_agent)))
            "task" "No solution yet." "No advice yet." ∈ calls (step c self) ∧
  ∃ a,
    ManagerEntry (OneAgent Demo.manager_agent) = ManagerEntry (OneAgent a) ∧
    role_mapping_get self MANAGER = Some (OneAgent a) ∧
    agent_class a = ManagerAgent_class ∧
    "No solution yet." = "No solution yet.".
Proof.
  intros c self.
  assert (CallAstep [Demo.solver_agent]
            (Some (ManagerEntry (OneAgent Demo.manager_agent)))
            "task" "No solution yet." "No advice yet." ∈ calls (step c self))
    as Hin.
  { eapply (list_elem_of_lookup_2 _ 1%nat). vm_compute. reflexivity. }
  split; [exact Hin|].
  exact (manager_argument_is_the_entry c self _ _ _ _ _ Hin).
Defined.

(** ** Sessions *)

Lemma step_frame c self :
  agents (after (step c self)) = agents self ∧
  role_assigner (after (step c self)) = role_assigner self ∧
  decision_maker (after (step c self)) = decision_maker self ∧
  executor (after (step c self)) = executor self ∧
  evaluator (after (step c self)) = evaluator self ∧
  max_turn (after (step c self)) = max_turn self ∧
  task_description (after (step c self)) = task_description self.
Proof.
  pose proof (step_round_run c self) as Hrun.
  destruct (outcome (step c self)) as [e|x].
  - by rewrite (round_run_raise_frame _ _ _ _ _ Hrun).
  - apply round_run_return in Hrun as (accept & -> & _). by destruct accept.
Qed.

Lemma run_ops_snoc ops o self :
  run_ops (ops ++ [o]) self = run_op o (run_ops ops self).
Proof. unfold run_ops. by rewrite foldl_app. Qed.

Lemma run_op_step c self : run_op (OpStep c) self = after (step c self).
Proof. reflexivity. Qed.

Lemma is_done_run self :
  is_done self =
  (inr ((cnt_turn self >=? max_turn self) || success self), self, []).
Proof.
  unfold is_done. run_bind_refl. run_bind_refl.
  by destruct (cnt_turn self >=? max_turn self).
Qed.

Lemma run_op_is_done self : run_op OpIsDone self = self.
Proof. simpl. by rewrite is_done_run. Qed.

(** X10. Over a whole session of [step], [reset], [is_done] and
    [set_task_description], the controller never writes its role mapping,
    its four strategy instances or [max_turn], and its task description is
    the one last assigned by [set_task_description], if any. *)
Theorem session_frame ops self :
  agents (run_ops ops self) = agents self ∧
  role_assigner (run_ops ops self) = role_assigner self ∧
  decision_maker (run_ops ops self) = decision_maker self ∧
  executor (run_ops ops self) = executor self ∧
  evaluator (run_ops ops self) = evaluator self ∧
  max_turn (run_ops ops self) = max_turn self ∧
  task_description (run_ops ops self) =
    default (task_description self) (last (omap op_task ops)).
Proof.
  induction ops as [|o ops IH] using rev_ind; [done|].
  rewrite run_ops_snoc, omap_app.
  destruct IH as (Ha & Hr & Hd & Hx & Hv & Hm & Ht).
  destruct o as [c| | |text].
  - rewrite run_op_step.
    destruct (step_frame c (run_ops ops self)) as (-> & -> & -> & -> & -> & -> & ->).
    simpl. by rewrite app_nil_r.
  - simpl. by rewrite app_nil_r.
  - rewrite run_op_is_done. simpl. by rewrite app_nil_r.
  - simpl. by rewrite last_snoc.
Qed.

(** X11. [set_task_description] reaches the strategies: in the round
    that follows it the role assigner, the decision maker and the evaluator
    are each given the new text as the task description. *)
Theorem set_task_description_reaches_strategies text c self :
  Forall (λ call, from_option (λ task, task = text) True (call_task call))
         (calls (step c (after (set_task_description text self)))).
Proof.
  destruct (step_staged c (after (set_task_description text self)));
    repeat constructor.
Qed.

Lemma run_op_cnt_turn o self :
  is_reset o = false →
  cnt_turn self ≤ cnt_turn (run_op o self) ≤
    cnt_turn self + (if is_step o then 1 else 0).
Proof.
  intros Hreset. destruct o as [c| | |text]; [|done| |simpl; lia].
  - rewrite run_op_step. pose proof (step_round_run c self) as Hrun.
    destruct (outcome (step c self)) as [e|x].
    + rewrite (round_run_raise_frame _ _ _ _ _ Hrun). simpl. lia.
    + apply round_run_return in Hrun as (accept & -> & _).
      destruct accept; simpl; lia.
  - rewrite run_op_is_done. simpl. lia.
Qed.

(** X12. Only [reset] lowers [cnt_turn]: over a session without [reset]
    the counter never decreases, and it grows by at most one for each
    [step]. *)
Theorem cnt_turn_bounds ops self :
  existsb is_reset ops = false →
  cnt_turn self ≤ cnt_turn (run_ops ops self) ≤
    cnt_turn self + Z.of_nat (length (List.filter is_step ops)).
Proof.
  induction ops as [|o ops IH] using rev_ind; [simpl; lia|].
  rewrite existsb_app, orb_false_iff. simpl. rewrite orb_false_r.
  intros [Hops Ho]. specialize (IH Hops).
  rewrite run_ops_snoc, List.filter_app, length_app.
  pose proof (run_op_cnt_turn o (run_ops ops self) Ho) as Hstep.
  simpl. destruct (is_step o); simpl; lia.
Qed.

Lemma cnt_turn_bounds_witness :
  let accept := Demo.collaborators [Demo.solver_agent] [Demo.plan_a] (PyBool true) in
  let broken := Demo.collaborators [Demo.solver_agent] [] (PyBool true) in
  let ops := [OpStep accept; OpIsDone; OpStep broken; OpSetTaskDescription "t";
              OpStep accept] in
  let self := Demo.env Demo.vertical (Some Demo.roles) 5 false in
  existsb is_reset ops = false ∧
  cnt_turn self ≤ cnt_turn (run_ops ops self) ≤
    cnt_turn self + Z.of_nat (length (List.filter is_step ops)).
Proof.
  intros accept broken ops self.
  split; [reflexivity|]. apply (cnt_turn_bounds ops self). reflexivity.
Defined.

Lemma run_ops_stable ops self :
  existsb is_reset ops = false →
  max_turn (run_ops ops self) = max_turn self ∧
  cnt_turn self ≤ cnt_turn (run_ops ops self) ∧
  (success self = true → success (run_ops ops self) = true).
Proof.
  induction ops as [|o ops IH] using rev_ind; [done|].
  rewrite existsb_app, orb_false_iff. simpl. rewrite orb_false_r.
  intros [Hops Ho]. destruct (IH Hops) as (Hmax & Hturn & Hsuccess).
  rewrite run_ops_snoc.
  pose proof (run_op_cnt_turn o (run_ops ops self) Ho) as Hstep.
  split; [|split].
  - rewrite <- Hmax. destruct o as [c| | |text]; [|done| |done].
    + rewrite run_op_step. by destruct (step_frame c (run_ops ops self))
        as (_ & _ & _ & _ & _ & -> & _).
    + by rewrite run_op_is_done.
  - lia.
  - intros Hs. by apply run_op_success_mono, Hsuccess.
Qed.

(** X13. Without [reset] a finished session stays finished: once
    [is_done] has returned true it returns true after any further [step],
    [is_done] and [set_task_description]. *)
Theorem is_done_stable ops self :
  existsb is_reset ops = false →
  outcome (is_done self) = inr true →
  outcome (is_done (run_ops ops self)) = inr true.
Proof.
  intros Hops. rewrite !is_done_run. unfold outcome. simpl.
  intros [= Hdone]. f_equal.
  destruct (run_ops_stable ops self Hops) as (-> & Hturn & Hsuccess).
  apply orb_true_iff in Hdone as [Hdone|Hdone]; apply orb_true_iff.
  - left. rewrite Z.geb_leb, Z.leb_le in *. lia.
  - right. by apply Hsuccess.
Qed.

Lemma is_done_stable_witness :
  let reject := Demo.collaborators [Demo.solver_agent] [Demo.plan_a] (PyBool false) in
  let ops := [OpStep reject; OpSetTaskDescription "t"; OpIsDone; OpStep reject] in
  let self := Demo.env Demo.vertical (Some Demo.roles) 10 false in
  existsb is_reset ops = false ∧
  outcome (is_done self) = inr true ∧
  outcome (is_done (run_ops ops self)) = inr true.
Proof.
  intros reject ops self.
  split; [reflexivity|]. split; [reflexivity|].
  apply (is_done_stable ops self); reflexivity.
Defined.

(** * The session driver *)

Section Driver.

Import StartupCompany.

Context {E R A : Type} `{!Environment E R} `{!Resettable E A}.

Lemma answers_app (ags : list A) t1 t2 (env : E) :
  answers ags (t1 ++ t2) env =
  ((answers ags t1 env).1 ++ (answers ags t2 (answers ags t1 env).2).1,
   (answers ags t2 (answers ags t1 env).2).2).
Proof.
  revert env. induction t1 as [|call t1 IH]; intros env; simpl.
  { by destruct (answers ags t2 env). }
  destruct (answer ags call env) as [a env']. rewrite IH.
  destruct (answers ags t1 env') as [l1 env1]. simpl.
  by destruct (answers ags t2 env1).
Qed.

(** The loop of [run]: what its calls were answered. *)
Lemma run_loop_answers fuel (self : @StartupCompany E A) r self' t :
  run_loop fuel self = Some (r, self', t) →
  agents self' = agents self ∧
  ∃ k,
    match r with
    | inr _ =>
        t = rounds k ++ [CallIsDone] ∧
        answers (agents self) t (environment self) =
          (round_answers k ++ [ReturnsBool true], environment self')
    | inl e =>
        t `prefix_of` rounds k ++ [CallIsDone] ∧
        ∃ l0, l0 `prefix_of` round_answers k ++ [ReturnsBool true] ∧
              answers (agents self) t (environment self) =
                (l0 ++ [Raises e], environment self')
    end.
Proof.
  revert self r self' t.
  induction fuel as [|fuel IH]; intros self r self' t; [done|]. simpl.
  destruct (env_is_done (environment self)) as [[e|[|]] env] eqn:Hdone.
  - intros [= <- <- <-]. split; [done|]. exists 0%nat. simpl.
    rewrite Hdone. simpl. split; [done|]. exists []. split; [by eexists|done].
  - intros [= <- <- <-]. split; [done|]. exists 0%nat. simpl.
    by rewrite Hdone.
  - destruct (env_step env) as [[e|x] env'] eqn:Hstep.
    + intros [= <- <- <-]. split; [done|]. exists 1%nat. simpl.
      rewrite Hdone. simpl. rewrite Hstep. simpl.
      split; [by exists [CallIsDone]|].
      exists [ReturnsBool false]. split; [by eexists|done].
    + destruct (run_loop fuel (with_environment env' self))
        as [[[r' s'] t']|] eqn:Hloop; [|done].
      intros [= <- <- <-].
      destruct (IH _ _ _ _ Hloop) as [Hags [k Hk]]. split; [done|].
      exists (S k). simpl in Hk |- *. rewrite Hdone. simpl. rewrite Hstep. simpl.
      destruct r' as [e|[]].
      * destruct Hk as (Hpre & l0 & Hl0 & ->). split.
        { by do 2 apply prefix_cons. }
        exists (ReturnsBool false :: Returns :: l0).
        split; [by do 2 apply prefix_cons|done].
      * destruct Hk as [-> ->]. done.
Qed.

(** X14. [run] calls [reset] first, then alternates [is_done] and [step],
    and calls [report_metrics] once, last, after the [is_done] that ended
    the loop.  When it returns, its calls are exactly a whole session, each
    [is_done] but the last was answered false, the last one true, and no
    call raised.  When it raises [e], its calls are an initial segment of a
    whole session: every call but the last returned what the session needs,
    and the last call is the one that raised [e], so that a failing [reset],
    [is_done] or [step] means no report.  The state [run] leaves is the one
    these calls leave. *)
Theorem run_call_sequence fuel (self : @StartupCompany E A) r self' t :
  run fuel self = Some (r, self', t) →
  agents self' = agents self ∧
  ∃ k,
    match r with
    | inr _ =>
        t = session k ∧
        answers (agents self) t (environment self) =
          (session_answers k, environment self')
    | inl e =>
        t `prefix_of` session k ∧
        ∃ l0, l0 `prefix_of` session_answers k ∧
              answers (agents self) t (environment self) =
                (l0 ++ [Raises e], environment self')
    end.
Proof.
  unfold run, session, session_answers.
  destruct (env_reset (environment self)) as [[e|[]] env] eqn:Hreset.
  { intros [= <- <- <-]. split; [done|]. exists 0%nat. simpl.
    rewrite Hreset. simpl. split; [by eexists|].
    exists []. split; [by eexists|done]. }
  destruct (run_loop fuel (with_environment env self))
    as [[[[e|[]] s'] t']|] eqn:Hloop; [| |done].
  - intros [= <- <- <-].
    destruct (run_loop_answers _ _ _ _ _ Hloop)
      as [Hags (k & Hpre & l0 & Hl0 & Hans)].
    split; [done|]. exists k. simpl in Hans |- *. rewrite Hreset. simpl.
    rewrite Hans. split.
    { apply prefix_cons. etrans; [exact Hpre|].
      apply prefix_app, prefix_cons, prefix_nil. }
    exists (Returns :: l0). split; [|done].
    apply prefix_cons. etrans; [exact Hl0|].
    apply prefix_app, prefix_cons, prefix_nil.
  - destruct (env_report_metrics (environment s')) as [r' env'] eqn:Hreport.
    intros [= <- <- <-].
    destruct (run_loop_answers _ _ _ _ _ Hloop) as [Hags (k & -> & Hans)].
    split; [done|]. exists k. simpl in Hans |- *. rewrite Hreset. simpl.
    rewrite <- !app_assoc. simpl.
    change (rounds k ++ [CallIsDone; CallReportMetrics])
      with (rounds k ++ [CallIsDone] ++ [CallReportMetrics]).
    rewrite app_assoc, answers_app, Hans. simpl. rewrite Hreport. simpl.
    destruct r' as [e|[]]; simpl.
    + split; [done|].
      exists (Returns :: round_answers k ++ [ReturnsBool true]).
      split; [|done].
      apply prefix_cons. exists [Returns]. by rewrite <- app_assoc.
    + split; [done|]. by rewrite <- app_assoc.
Qed.

(** [for agent in self.agents: agent.reset()] on the agents from index [i]
    on: what the calls were answered. *)
Lemma reset_agents_answers (ags : list A) i l (env : E) :
  drop i ags = l →
  match (reset_agents i l env).1.1 with
  | inr _ =>
      (reset_agents i l env).2 = CallAgentReset <$> seq i (length l) ∧
      answers ags (reset_agents i l env).2 env =
        (replicate (length l) Returns, (reset_agents i l env).1.2)
  | inl e =>
      (reset_agents i l env).2 `prefix_of` CallAgentReset <$> seq i (length l) ∧
      ∃ n, answers ags (reset_agents i l env).2 env =
             (replicate n Returns ++ [Raises e], (reset_agents i l env).1.2)
  end.
Proof.
  revert i env. induction l as [|a l IH]; intros i env Hdrop; [done|].
  assert (ags !! i = Some a) as Hi.
  { rewrite <- (Nat.add_0_r i), <- lookup_drop, Hdrop. done. }
  assert (drop (S i) ags = l) as Hdrop'.
  { replace (S i) with (i + 1)%nat by lia.
    by rewrite <- (drop_drop ags 1 i), Hdrop. }
  simpl. destruct (agent_reset a env) as [[e|[]] env'] eqn:Ha; simpl.
  - rewrite Hi, Ha. simpl. split; [by eexists|]. by exists 0%nat.
  - specialize (IH (S i) env' Hdrop').
    destruct (reset_agents (S i) l env') as [[r env''] t]. simpl in *.
    rewrite Hi, Ha. simpl.
    destruct r as [e|[]].
    + destruct IH as (Hpre & n & ->). split; [by apply prefix_cons|].
      by exists (S n).
    + destruct IH as [-> ->]. done.
Qed.

(** X15. [reset] of the company resets the environment first and then
    the agents in list order, and stops at the first call that raises.
    When it returns, its calls are the environment's [reset] and one [reset]
    for every position of the list of agents, in order, and all of them
    returned.  When it raises [e], its calls are an initial segment of
    these: every call but the last returned and the last call is the one
    that raised [e], so that no agent is reset after a failure, and none at
    all when the environment's [reset] fails.  The list of agents is the
    same afterwards, and the state is the one these calls leave. *)
Theorem company_reset_stops_at_first_failure (self : @StartupCompany E A) :
  agents (reset self).1.2 = agents self ∧
  match (reset self).1.1 with
  | inr _ =>
      (reset self).2 = reset_calls (length (agents self)) ∧
      answers (agents self) (reset self).2 (environment self) =
        (replicate (S (length (agents self))) Returns,
         environment (reset self).1.2)
  | inl e =>
      (reset self).2 `prefix_of` reset_calls (length (agents self)) ∧
      ∃ n, answers (agents self) (reset self).2 (environment self) =
             (replicate n Returns ++ [Raises e], environment (reset self).1.2)
  end.
Proof.
  unfold reset, reset_calls.
  destruct (env_reset (environment self)) as [[e|[]] env] eqn:Hreset; simpl.
  { rewrite Hreset. simpl. split; [done|]. split; [by eexists|]. by exists 0%nat. }
  pose proof (reset_agents_answers (agents self) 0 (agents self) env eq_refl)
    as Hagents.
  destruct (reset_agents 0 (agents self) env) as [[r env'] t]. simpl in *.
  rewrite Hreset. simpl. split; [done|].
  destruct r as [e|[]].
  - destruct Hagents as (Hpre & n & ->). split; [by apply prefix_cons|].
    by exists (S n).
  - destruct Hagents as [-> ->]. done.
Qed.

End Driver.

Lemma run_call_sequence_witness :
  let accept := Demo.collaborators [Demo.solver_agent] [Demo.plan_a] (PyBool true) in
  let report := λ s : PipelineEnvironment, (inr () : PyExc + unit, s) in
  let self := Demo.env Demo.vertical (Some Demo.roles) 7 false in
  ∃ r co t,
    StartupCompany.run (Environment0 := pipeline_environment (λ _, accept) report)
                       3 (pipeline_company self 0) = Some (r, co, t) ∧
    StartupCompany.agents co = [] ∧
    ∃ k,
      match r with
      | inr _ =>
          t = StartupCompany.session k ∧
          StartupCompany.answers
            (Environment0 := pipeline_environment (λ _, accept) report)
            (Resettable0 := no_agents)
            [] t (self, 0%nat) =
          (StartupCompany.session_answers k, StartupCompany.environment co)
      | inl e =>
          t `prefix_of` StartupCompany.session k ∧
          ∃ l0, l0 `prefix_of` StartupCompany.session_answers k ∧
                StartupCompany.answers
                  (Environment0 := pipeline_environment (λ _, accept) report)
                  (Resettable0 := no_agents)
                  [] t (self, 0%nat) =
                (l0 ++ [StartupCompany.Raises e], StartupCompany.environment co)
      end.
Proof.
  intros accept report self. eexists _, _, _.
  assert (∀ x, x = StartupCompany.run
                     (Environment0 := pipeline_environment (λ _, accept) report)
                     3 (pipeline_company self 0) →
               StartupCompany.run
                 (Environment0 := pipeline_environment (λ _, accept) report)
                 3 (pipeline_company self 0) = x) as Hx by done.
  split; [apply Hx; vm_compute; reflexivity|].
  eapply (run_call_sequence (Environment0 := pipeline_environment (λ _, accept) report)
            (Resettable0 := no_agents)
            3 (pipeline_company self 0)).
  apply Hx. vm_compute. reflexivity.
Defined.

(** ** The round controller under the driver *)

Lemma pipeline_loop_bounded cs report fuel self n :
  (Z.to_nat (max_turn self - cnt_turn self) < fuel)%nat →
  ∃ r co t,
    StartupCompany.run_loop (Environment0 := pipeline_environment cs report)
                            fuel (pipeline_company self n) = Some (r, co, t) ∧
    (length (List.filter is_CallStep t)
     ≤ Z.to_nat (max_turn self - cnt_turn self))%nat.
Proof.
  revert self n. induction fuel as [|fuel IH]; intros self n Hfuel; [lia|].
  simpl. rewrite is_done_run. unfold outcome, after. simpl.
  destruct (cnt_turn self >=? max_turn self) eqn:Hturn; simpl.
  { eexists _, _, _. split; [done|]. simpl. lia. }
  destruct (success self) eqn:Hs.
  { eexists _, _, _. split; [done|]. simpl. lia. }
  rewrite Z.geb_leb, Z.leb_gt in Hturn.
  pose proof (step_round_run (cs n) self) as Hrun.
  unfold outcome, after in Hrun.
  destruct (step (cs n) self) as [[[e|x] s'] t']; simpl in *.
  { eexists _, _, _. split; [done|]. simpl. lia. }
  apply round_run_return in Hrun as (accept & -> & _).
  set (self' := with_cnt_turn (cnt_turn self + 1)
                  (if accept then with_success true self else self)).
  assert (max_turn self' = max_turn self ∧ cnt_turn self' = cnt_turn self + 1)
    as [Hmax Hcnt] by by destruct accept.
  destruct (IH self' (S n)) as (r & co & t & Hloop & Hlen); [lia|].
  unfold pipeline_company in Hloop.
  unfold StartupCompany.with_environment. simpl. rewrite Hloop.
  eexists _, _, _. split; [done|]. simpl. rewrite Hmax, Hcnt in Hlen. lia.
Qed.

Lemma run_pipeline_unfold cs report fuel self n :
  StartupCompany.run (Environment0 := pipeline_environment cs report)
                     fuel (pipeline_company self n) =
  match StartupCompany.run_loop (Environment0 := pipeline_environment cs report)
                                fuel (pipeline_company (with_cnt_turn 0 self) n) with
  | None => None
  | Some (inl e, co, t) => Some (inl e, co, StartupCompany.CallReset :: t)
  | Some (inr _, co, t) =>
      match StartupCompany.env_report_metrics
              (Environment := pipeline_environment cs report)
              (StartupCompany.environment co) with
      | (r, env) =>
          Some (r, StartupCompany.with_environment env co,
                StartupCompany.CallReset :: t ++ [StartupCompany.CallReportMetrics])
      end
  end.
Proof. reflexivity. Qed.

(** X16. Driven by [run], the round controller always comes to an end,
    whatever its strategies answer: the loop stops within [max_turn] rounds
    (at once when [max_turn] is not positive), so that [max_turn + 1]
    evaluations of its condition are enough. *)
Theorem run_pipeline_bounded cs report self n extra :
  ∃ r co t,
    StartupCompany.run (Environment0 := pipeline_environment cs report)
                       (S (Z.to_nat (max_turn self)) + extra)
                       (pipeline_company self n) = Some (r, co, t) ∧
    (length (List.filter is_CallStep t) ≤ Z.to_nat (max_turn self))%nat.
Proof.
  destruct (pipeline_loop_bounded cs report
              (S (Z.to_nat (max_turn self)) + extra) (with_cnt_turn 0 self) n)
    as (r & co & t & Hloop & Hlen); [simpl; lia|].
  simpl in Hlen. rewrite Z.sub_0_r in Hlen.
  rewrite run_pipeline_unfold, Hloop.
  destruct r as [e|[]].
  - by eexists _, _, _.
  - destruct (StartupCompany.env_report_metrics _) as [r' env'].
    eexists _, _, _. split; [done|]. simpl.
    rewrite List.filter_app, length_app. simpl. lia.
Qed.

(** X17. [run] never steps a controller that has succeeded before: its
    [reset] zeroes the counter but leaves [success], so that the first
    [is_done] is true and the session goes from [reset] straight to
    [report_metrics]. *)
Theorem run_skips_succeeded_controller cs report self n fuel :
  success self = true →
  StartupCompany.run (Environment0 := pipeline_environment cs report)
                     (S fuel) (pipeline_company self n) =
  Some ((report (with_cnt_turn 0 self)).1,
        pipeline_company (report (with_cnt_turn 0 self)).2 n,
        [StartupCompany.CallReset; StartupCompany.CallIsDone;
         StartupCompany.CallReportMetrics]).
Proof.
  intros Hs. unfold StartupCompany.run. simpl.
  rewrite is_done_run. unfold outcome, after. simpl. rewrite Hs, orb_true_r.
  simpl. by destruct (report (with_cnt_turn 0 self)).
Qed.

Lemma run_skips_succeeded_controller_witness :
  let accept := Demo.collaborators [Demo.solver_agent] [Demo.plan_a] (PyBool true) in
  let self := run_op (OpStep accept)
                     (Demo.env Demo.vertical (Some Demo.roles) 0 false) in
  let report := λ s : PipelineEnvironment, (inr () : PyExc + unit, s) in
  success self = true ∧
  StartupCompany.run (Environment0 := pipeline_environment (λ _, accept) report)
                     3 (pipeline_company self 1) =
  Some ((report (with_cnt_turn 0 self)).1,
        pipeline_company (report (with_cnt_turn 0 self)).2 1,
        [StartupCompany.CallReset; StartupCompany.CallIsDone;
         StartupCompany.CallReportMetrics]).
Proof.
  intros accept self report.
  assert (success self = true) as Hs by (vm_compute; reflexivity).
  split; [exact Hs|].
  exact (run_skips_succeeded_controller (λ _, accept) report self 1 2 Hs).
Defined.

(** * Construction *)

Lemma B_bind_run {T U} (m : Construction.B T) (k : T → Construction.B U)
    h r h1 t1 :
  m h = (r, h1, t1) →
  (m ≫= k) h =
  match r with
  | inl e => (inl e, h1, t1)
  | inr x => let '(r', h2, t2) := k x h1 in (r', h2, t1 ++ t2)
  end.
Proof.
  intros Hm. unfold mbind, Construction.B_mbind, Construction.B_bind.
  by rewrite Hm.
Qed.

Lemma pop_build rb key default_type registry kwargs h :
  (Construction.kwargs_pop key default_type kwargs).2 = delete key kwargs ∧
  Construction.stage rb key default_type registry kwargs h
    (Construction.result_of
       (Construction.build_components rb
          (Construction.kwargs_pop key default_type kwargs).1 registry h))
    (Construction.store_of
       (Construction.build_components rb
          (Construction.kwargs_pop key default_type kwargs).1 registry h))
    (Construction.calls_of
       (Construction.build_components rb
          (Construction.kwargs_pop key default_type kwargs).1 registry h)).
Proof.
  unfold Construction.kwargs_pop.
  destruct (kwargs !! key) as [[l|v]|] eqn:Hkey; simpl.
  - split; [done|].
    destruct (h l !! "type") as [ty|] eqn:Hty.
    + by apply Construction.stage_given.
    + by eapply Construction.stage_no_type.
  - split; [done|].
    pose proof (Construction.stage_not_a_dict rb key default_type registry
                  kwargs h v Hkey) as Hst.
    by destruct v.
  - split; [by rewrite delete_id|].
    rewrite lookup_singleton_eq. unfold Construction.build.
    rewrite delete_singleton_eq.
    by apply Construction.stage_default.
Qed.

Ltac init_stage rb key default_type registry kwargs h :=
  let Hpop := fresh "Hpop" in
  let Hst := fresh "Hst" in
  destruct (pop_build rb key default_type registry kwargs h) as [Hpop Hst];
  destruct (Construction.kwargs_pop key default_type kwargs) as [? ?];
  simpl in Hpop; subst;
  match type of Hst with
  | context [Construction.build_components rb ?cfg registry h] =>
      let r := fresh "r" in
      let h' := fresh "h" in
      let t := fresh "t" in
      let Hbc := fresh "Hbc" in
      destruct (Construction.build_components rb cfg registry h)
        as [[r h'] t] eqn:Hbc;
      unfold Construction.result_of, Construction.store_of,
        Construction.calls_of in Hst; simpl in Hst;
      erewrite B_bind_run by exact Hbc
  end.

(** Every run of the constructor is one of [init_run]. *)
Lemma init_runs rb bm kwargs h :
  Construction.init_run rb bm kwargs h
    (Construction.result_of (Construction.__init__ rb bm kwargs h))
    (Construction.store_of (Construction.__init__ rb bm kwargs h))
    (Construction.calls_of (Construction.__init__ rb bm kwargs h)).
Proof.
  unfold Construction.__init__.
  init_stage rb "role_assigner" "role_description"
             Construction.role_assigner_registry kwargs h.
  destruct r as [e|x1]; [by apply Construction.init_stops_at_role_assigner|].
  init_stage rb "decision_maker" "vertical"
             Construction.decision_maker_registry
             (delete "role_assigner" kwargs) h0.
  destruct r as [e|x2];
    [by eapply Construction.init_stops_at_decision_maker|].
  init_stage rb "executor" "none" Construction.executor_registry
             (delete "decision_maker" (delete "role_assigner" kwargs)) h1.
  destruct r as [e|x3]; [by eapply Construction.init_stops_at_executor|].
  init_stage rb "evaluator" "basic" Construction.evaluator_registry
             (delete "executor"
                (delete "decision_maker" (delete "role_assigner" kwargs))) h2.
  destruct r as [e|x4]; [by eapply Construction.init_stops_at_evaluator|].
  by eapply Construction.init_reaches_BaseModel.
Qed.

(** One stage of the constructor, [build_components(kwargs.pop(key,
    default), registry)]: either the pop of ["type"] fails and nothing is
    called, or the registry is asked for what the caller requested. *)
Lemma build_stage rb key default_type registry K h :
  (Construction.kwargs_pop key default_type K).2 = delete key K ∧
  ((∃ e, Construction.pop_fails K h key e ∧
         Construction.build_components rb
           (Construction.kwargs_pop key default_type K).1 registry h =
         (inl e, h, [])) ∨
   (∃ ty cfg h',
       Construction.requested K h key default_type = Some (ty, cfg) ∧
       (∀ l, h' l = h l ∨ h' l !! "type" = None) ∧
       (K !! key = None → h' = h) ∧
       Construction.build_components rb
         (Construction.kwargs_pop key default_type K).1 registry h =
       (Construction.lift_build (rb registry ty cfg), h',
        [Construction.CallBuild registry ty cfg]))).
Proof.
  unfold Construction.kwargs_pop, Construction.pop_fails, Construction.requested.
  destruct (K !! key) as [[l|v]|] eqn:Hkey; simpl.
  - split; [done|]. destruct (h l !! "type") as [ty|] eqn:Hty.
    + right.
      exists ty, (delete "type" (h l)),
             (Construction.store_set l (delete "type" (h l)) h).
      split; [done|]. split; [|split; [done|done]].
      intros l'. unfold Construction.store_set. case_decide; [|by left].
      subst. right. by rewrite lookup_delete_eq.
    + left. by eexists.
  - split; [done|]. left. destruct v; by eexists.
  - split; [by rewrite delete_id|]. right. exists (PyStr default_type), ∅, h.
    split; [done|]. split; [by left|]. split; [done|].
    rewrite lookup_singleton_eq. unfold Construction.build.
    by rewrite delete_singleton_eq.
Qed.

Lemma requested_initial kwargs K h h' key default_type x :
  (∀ l, h' l = h l ∨ h' l !! "type" = None) →
  K !! key = kwargs !! key →
  Construction.requested K h' key default_type = Some x →
  Construction.requested kwargs h key default_type = Some x.
Proof.
  intros Hcons HK. unfold Construction.requested. rewrite HK.
  destruct (kwargs !! key) as [[l|v]|]; try done.
  destruct (Hcons l) as [-> | ->]; done.
Qed.

Lemma requested_no_type kwargs h key default_type ty cfg :
  Construction.requested kwargs h key default_type = Some (ty, cfg) →
  cfg !! "type" = None.
Proof.
  unfold Construction.requested.
  destruct (kwargs !! key) as [[l|v]|]; try done.
  - destruct (h l !! "type"); [|done]. intros [= <- <-].
    by rewrite lookup_delete_eq.
  - by intros [= <- <-].
Qed.

Lemma pop_fails_initial kwargs K h key e :
  K !! key = kwargs !! key →
  Construction.pop_fails K h key e → Construction.pop_fails kwargs h key e.
Proof. unfold Construction.pop_fails. by intros ->. Qed.

Lemma consumed_trans (h h1 h2 : nat → gmap string PyVal) :
  (∀ l, h1 l = h l ∨ h1 l !! "type" = None) →
  (∀ l, h2 l = h1 l ∨ h2 l !! "type" = None) →
  ∀ l, h2 l = h l ∨ h2 l !! "type" = None.
Proof.
  intros H1 H2 l. destruct (H2 l) as [-> |]; [|by right]. apply H1.
Qed.

(** One more stage of a run of the constructor: [Hinit] is the equation of
    the run, [HC] says what the stages so far did to the store. *)
Ltac next_stage Hinit HC rb kwargs key default_type registry K h :=
  let Hpop := fresh "Hpop" in
  let e := fresh "e" in
  let Hfail := fresh "Hfail" in
  let Hrun := fresh "Hrun" in
  let ty := fresh "ty" in
  let cfg := fresh "cfg" in
  let h' := fresh "h" in
  let Hreq := fresh "Hreq" in
  let Hcons := fresh "Hcons" in
  let Hsame := fresh "Hsame" in
  let K' := fresh "K" in
  let HC' := fresh "HC" in
  destruct (build_stage rb key default_type registry K h)
    as [Hpop [(e & Hfail & Hrun)|(ty & cfg & h' & Hreq & Hcons & Hsame & Hrun)]];
  destruct (Construction.kwargs_pop key default_type K) as [? K'];
  simpl in Hpop, Hrun; subst K'; cbn beta iota in Hinit;
  erewrite B_bind_run in Hinit by exact Hrun; clear Hrun;
  cbn beta iota in Hinit;
  [apply (pop_fails_initial kwargs) in Hfail;
   [|rewrite ?lookup_delete_ne by done; done]
  |eapply (requested_initial kwargs) in Hreq;
   [|exact HC|rewrite ?lookup_delete_ne by done; done];
   pose proof (consumed_trans _ _ _ HC Hcons) as HC';
   clear HC Hcons; rename HC' into HC].

(** The end of a run of the constructor: the run is known, call by call. *)
Ltac init_leaf Hinit :=
  simpl in Hinit; subst;
  unfold Construction.calls_of, Construction.result_of, Construction.store_of,
    Construction.strategy_keys;
  simpl;
  split;
  [repeat apply Forall_cons_2; try apply Forall_nil_2; simpl;
   eauto using requested_no_type|];
  split;
  [intros i call Hi Hlt;
   do 4 (destruct i as [|i];
         [solve [simpl in Hi; simplify_eq; eexists _, _, _, _, _; split_and!;
                 first [reflexivity|eassumption]]|]);
   lia|];
  split;
  [intros i call Hi Hle;
   do 4 (destruct i as [|i]; [lia|]);
   solve [destruct i as [|i]; simpl in Hi; simplify_eq;
          split; first [reflexivity|idtac];
          eexists _, _, _, _; split; first [reflexivity|idtac];
          repeat constructor; done]|];
  split;
  [intros call e' Hin Hraise; split_trace; subst; simpl in Hraise;
   split; congruence|];
  split;
  [intros self Hres; simplify_eq; eexists _, _, _, _; split;
   first [reflexivity|done]|];
  intros e' Hres; simplify_eq;
  first [ solve [left; eexists _, _; split_and!;
                 first [reflexivity|eassumption|done]]
        | solve [right; eexists _, _, _; split_and!;
                 first [reflexivity|eassumption]] ].

(** X20. The constructor, call by call.  It asks the four registries in
    the order role assigner, decision maker, executor, evaluator, each one
    for what the caller requested (the ["type"] entry of the configuration
    as the variant and its other entries as keyword arguments, the default
    variant without arguments when the keyword is absent), never handing
    over a ["type"] key; its fifth call, the last, hands to [BaseModel] the
    four components as the registries returned them and the caller's
    keywords without the four strategy keys.  A call that raises is the
    last call, and the constructor raises what it raised.  When the
    constructor returns, it has made all five calls and returns what
    [BaseModel] returned; when it raises, either its last call raised, or
    the configuration of the stage that comes next could not be popped. *)
Theorem init_hands_over rb bm kwargs h :
  let run := Construction.__init__ rb bm kwargs h in
  let kwargs' := foldl (λ kw key, delete key kw) kwargs
                       Construction.strategy_keys in
  Forall (Construction.well_formed_call kwargs) (Construction.calls_of run) ∧
  (∀ i call,
      Construction.calls_of run !! i = Some call → (i < 4)%nat →
      ∃ key default_type registry component_type config,
        Construction.stages !! i = Some (key, default_type, registry) ∧
        call = Construction.CallBuild registry component_type config ∧
        Construction.requested kwargs h key default_type
          = Some (component_type, config)) ∧
  (∀ i call,
      Construction.calls_of run !! i = Some call → (4 ≤ i)%nat →
      i = 4%nat ∧
      ∃ x1 x2 x3 x4,
        call = Construction.CallBaseModel x1 x2 x3 x4 kwargs' ∧
        Forall2 (Construction.build_returns rb)
                (take 4 (Construction.calls_of run)) [x1; x2; x3; x4]) ∧
  (∀ call e,
      call ∈ Construction.calls_of run →
      Construction.call_raises rb bm call e →
      Construction.result_of run = inl (Construction.Raised e) ∧
      last (Construction.calls_of run) = Some call) ∧
  (∀ self,
      Construction.result_of run = inr self →
      ∃ x1 x2 x3 x4,
        Construction.calls_of run !! 4%nat
          = Some (Construction.CallBaseModel x1 x2 x3 x4 kwargs') ∧
        bm x1 x2 x3 x4 kwargs' = inr self) ∧
  (∀ e,
      Construction.result_of run = inl e →
      (∃ call e', last (Construction.calls_of run) = Some call ∧
                  Construction.call_raises rb bm call e' ∧
                  e = Construction.Raised e') ∨
      (∃ key default_type registry,
          Construction.stages !! length (Construction.calls_of run)
            = Some (key, default_type, registry) ∧
          Construction.pop_fails kwargs (Construction.store_of run) key e)).
Proof.
  cbv zeta.
  remember (Construction.__init__ rb bm kwargs h) as run eqn:Hinit.
  unfold Construction.__init__ in Hinit.
  assert (∀ l, h l = h l ∨ h l !! "type" = None) as HC by (by left).
  next_stage Hinit HC rb kwargs "role_assigner" "role_description"
             Construction.role_assigner_registry kwargs h.
  { init_leaf Hinit. }
  destruct (rb Construction.role_assigner_registry ty cfg) as [e1|x1] eqn:Hrb1;
    unfold Construction.lift_build in Hinit; cbn beta iota in Hinit.
  { init_leaf Hinit. }
  next_stage Hinit HC rb kwargs "decision_maker" "vertical"
             Construction.decision_maker_registry
             (delete "role_assigner" kwargs) h0.
  { init_leaf Hinit. }
  destruct (rb Construction.decision_maker_registry ty0 cfg0) as [e2|x2] eqn:Hrb2;
    unfold Construction.lift_build in Hinit; cbn beta iota in Hinit.
  { init_leaf Hinit. }
  next_stage Hinit HC rb kwargs "executor" "none" Construction.executor_registry
             (delete "decision_maker" (delete "role_assigner" kwargs)) h1.
  { init_leaf Hinit. }
  destruct (rb Construction.executor_registry ty1 cfg1) as [e3|x3] eqn:Hrb3;
    unfold Construction.lift_build in Hinit; cbn beta iota in Hinit.
  { init_leaf Hinit. }
  next_stage Hinit HC rb kwargs "evaluator" "basic"
             Construction.evaluator_registry
             (delete "executor"
                (delete "decision_maker" (delete "role_assigner" kwargs))) h2.
  { init_leaf Hinit. }
  destruct (rb Construction.evaluator_registry ty2 cfg2) as [e4|x4] eqn:Hrb4;
    unfold Construction.lift_build in Hinit; cbn beta iota in Hinit.
  { init_leaf Hinit. }
  unfold Construction.super_init in Hinit.
  destruct (bm x1 x2 x3 x4 _) as [e5|self0] eqn:Hbm; init_leaf Hinit.
Qed.

(** X21. Without strategy keywords the constructor builds the variants
    ["role_description"], ["vertical"], ["none"] and ["basic"], in this
    order and each without arguments, stopping at the first registry that
    raises and raising what it raised; when the four have returned it hands
    their components and the caller's keywords, as they are, to [BaseModel],
    and returns or raises what [BaseModel] does.  It writes to no dict of
    the caller. *)
Theorem init_defaults rb bm kwargs h :
  (∀ key, key ∈ Construction.strategy_keys → kwargs !! key = None) →
  let build1 := Construction.CallBuild Construction.role_assigner_registry
                  (PyStr "role_description") ∅ in
  let build2 := Construction.CallBuild Construction.decision_maker_registry
                  (PyStr "vertical") ∅ in
  let build3 := Construction.CallBuild Construction.executor_registry
                  (PyStr "none") ∅ in
  let build4 := Construction.CallBuild Construction.evaluator_registry
                  (PyStr "basic") ∅ in
  Construction.__init__ rb bm kwargs h =
  match rb Construction.role_assigner_registry (PyStr "role_description") ∅ with
  | inl e => (inl (Construction.Raised e), h, [build1])
  | inr x1 =>
      match rb Construction.decision_maker_registry (PyStr "vertical") ∅ with
      | inl e => (inl (Construction.Raised e), h, [build1; build2])
      | inr x2 =>
          match rb Construction.executor_registry (PyStr "none") ∅ with
          | inl e => (inl (Construction.Raised e), h, [build1; build2; build3])
          | inr x3 =>
              match rb Construction.evaluator_registry (PyStr "basic") ∅ with
              | inl e =>
                  (inl (Construction.Raised e), h,
                   [build1; build2; build3; build4])
              | inr x4 =>
                  (match bm x1 x2 x3 x4 kwargs with
                   | inl e => inl (Construction.Raised e)
                   | inr self => inr self
                   end, h,
                   [build1; build2; build3; build4;
                    Construction.CallBaseModel x1 x2 x3 x4 kwargs])
              end
          end
      end
  end.
Proof.
  intros Hnone.
  assert (kwargs !! "role_assigner" = None) as K1
    by (apply Hnone; repeat constructor).
  assert (kwargs !! "decision_maker" = None) as K2
    by (apply Hnone; repeat constructor).
  assert (kwargs !! "executor" = None) as K3
    by (apply Hnone; repeat constructor).
  assert (kwargs !! "evaluator" = None) as K4
    by (apply Hnone; repeat constructor).
  cbv zeta.
  unfold Construction.__init__, Construction.kwargs_pop.
  rewrite K1, K2, K3, K4.
  unfold Construction.build_components.
  rewrite !lookup_singleton_eq, !delete_singleton_eq.
  unfold mbind, Construction.B_mbind, Construction.B_bind, Construction.build,
    Construction.super_init.
  destruct (rb Construction.role_assigner_registry _ _); [done|].
  destruct (rb Construction.decision_maker_registry _ _); [done|].
  destruct (rb Construction.executor_registry _ _); [done|].
  destruct (rb Construction.evaluator_registry _ _); done.
Qed.

Lemma init_defaults_witness :
  let kwargs : gmap string Construction.Value :=
    {[ "task_description" := Construction.VVal (PyStr "task") ]} in
  (∀ key, key ∈ Construction.strategy_keys → kwargs !! key = None) ∧
  Construction.__init__ Demo3.registry_build Demo3.BaseModel_init
                        kwargs Demo3.store =
  (inr {| agents := None;
          role_assigner := {| component_class := "role_description" |};
          decision_maker := {| component_class := "vertical" |};
          executor := {| component_class := "none" |};
          evaluator := {| component_class := "basic" |};
          task_description := "task";
          cnt_turn := 0; max_turn := 10; success := false |},
   Demo3.store,
   [Construction.CallBuild Construction.role_assigner_registry
      (PyStr "role_description") ∅;
    Construction.CallBuild Construction.decision_maker_registry
      (PyStr "vertical") ∅;
    Construction.CallBuild Construction.executor_registry (PyStr "none") ∅;
    Construction.CallBuild Construction.evaluator_registry (PyStr "basic") ∅;
    Construction.CallBaseModel
      {| component_class := "role_description" |}
      {| component_class := "vertical" |}
      {| component_class := "none" |}
      {| component_class := "basic" |} kwargs]).
Proof.
  intros kwargs.
  assert (∀ key, key ∈ Construction.strategy_keys → kwargs !! key = None)
    as Hnone.
  { intros key Hkey. unfold Construction.strategy_keys in Hkey.
    split_trace; subst key; reflexivity. }
  split; [exact Hnone|].
  exact (init_defaults Demo3.registry_build Demo3.BaseModel_init kwargs
                       Demo3.store Hnone).
Defined.

Lemma stage_keeps_consumed rb key default_type registry kwargs h r h' t l :
  Construction.stage rb key default_type registry kwargs h r h' t →
  h l !! "type" = None → h' l !! "type" = None.
Proof.
  destruct 1 as [Hkey|l0 ty Hkey Hty|l0 Hkey Hty|v Hkey]; try done.
  intros Hl. unfold Construction.store_set. case_decide; [|done].
  by rewrite lookup_delete_eq.
Qed.

Lemma stage_returns rb key default_type registry kwargs h x h' t :
  Construction.stage rb key default_type registry kwargs h (inr x) h' t →
  (kwargs !! key = None ∧ h' = h ∧
   Construction.lift_build (rb registry (PyStr default_type) ∅) = inr x) ∨
  (∃ l, kwargs !! key = Some (Construction.VRef l) ∧ h' l !! "type" = None).
Proof.
  inversion 1 as [Hkey Hr|l ty Hkey Hty Hr| |]; subst.
  - left. by rewrite Hr.
  - right. exists l. split; [done|]. unfold Construction.store_set.
    rewrite decide_True by done. by rewrite lookup_delete_eq.
Qed.

(** A constructor call on configurations that have lost their ["type"]. *)
Lemma init_on_consumed rb bm kwargs h :
  (∀ key l, key ∈ Construction.strategy_keys →
            kwargs !! key = Some (Construction.VRef l) → h l !! "type" = None) →
  (∀ key v, key ∈ Construction.strategy_keys →
            kwargs !! key ≠ Some (Construction.VVal v)) →
  (kwargs !! "role_assigner" = None →
   ∃ x, rb Construction.role_assigner_registry (PyStr "role_description") ∅ = inr x) →
  (kwargs !! "decision_maker" = None →
   ∃ x, rb Construction.decision_maker_registry (PyStr "vertical") ∅ = inr x) →
  (kwargs !! "executor" = None →
   ∃ x, rb Construction.executor_registry (PyStr "none") ∅ = inr x) →
  (kwargs !! "evaluator" = None →
   ∃ x, rb Construction.evaluator_registry (PyStr "basic") ∅ = inr x) →
  (∃ key, key ∈ Construction.strategy_keys ∧ is_Some (kwargs !! key)) →
  Construction.result_of (Construction.__init__ rb bm kwargs h)
  = inl (Construction.KeyError "type").
Proof.
  intros Hconsumed Hdicts D1 D2 D3 D4 (key & Hkey & Hsome).
  assert (∀ k d reg K h0 r h' t,
             Construction.stage rb k d reg K h0 r h' t →
             k ∈ Construction.strategy_keys →
             K !! k = kwargs !! k →
             h0 = h →
             (kwargs !! k = None → ∃ x, rb reg (PyStr d) ∅ = inr x) →
             (kwargs !! k = None ∧ h' = h ∧ ∃ x, r = inr x) ∨
             (is_Some (kwargs !! k) ∧ r = inl (Construction.KeyError "type")))
    as Hstage.
  { intros k d reg K h0 r h' t Hst Hk HK -> Hd.
    destruct Hst as [Hnone|l ty Hl Hty|l Hl Hty|v Hv]; rewrite HK in *.
    - left. destruct (Hd Hnone) as [x ->]. eauto.
    - rewrite (Hconsumed k l Hk Hl) in Hty. discriminate.
    - right. eauto.
    - by destruct (Hdicts k v Hk). }
  unfold Construction.strategy_keys in Hkey.
  destruct (init_runs rb bm kwargs h)
    as [e h1 t1 H1|x1 h1 t1 e h2 t2 H1 H2|x1 h1 t1 x2 h2 t2 e h3 t3 H1 H2 H3
        |x1 h1 t1 x2 h2 t2 x3 h3 t3 e h4 t4 H1 H2 H3 H4
        |x1 h1 t1 x2 h2 t2 x3 h3 t3 x4 h4 t4 H1 H2 H3 H4].
  all: destruct (Hstage _ _ _ _ _ _ _ _ H1
                  ltac:(repeat constructor)
                  eq_refl eq_refl D1)
         as [(K1 & -> & y1 & E1)|[S1 E1]]; try congruence.
  all: try (destruct (Hstage _ _ _ _ _ _ _ _ H2
                  ltac:(repeat constructor)
                  ltac:(by rewrite !lookup_delete_ne) eq_refl D2)
         as [(K2 & -> & y2 & E2)|[S2 E2]]; try congruence).
  all: try (destruct (Hstage _ _ _ _ _ _ _ _ H3
                  ltac:(repeat constructor)
                  ltac:(by rewrite !lookup_delete_ne) eq_refl D3)
         as [(K3 & -> & y3 & E3)|[S3 E3]]; try congruence).
  all: try (destruct (Hstage _ _ _ _ _ _ _ _ H4
                  ltac:(repeat constructor)
                  ltac:(by rewrite !lookup_delete_ne) eq_refl D4)
         as [(K4 & -> & y4 & E4)|[S4 E4]]; try congruence).
  all: split_trace; subst key; destruct Hsome as [? Hsome]; congruence.
Qed.

(** X22. The constructor consumes the configuration dicts it is given:
    [config.pop("type")] writes to the caller's dict.  After a constructor
    call that returned, a second call with the same keyword arguments, one
    of the four configurations among them, raises [KeyError] for
    ["type"]. *)
Theorem init_consumes_configs rb bm kwargs h self :
  Construction.result_of (Construction.__init__ rb bm kwargs h) = inr self →
  (∃ key, key ∈ Construction.strategy_keys ∧ is_Some (kwargs !! key)) →
  Construction.result_of
    (Construction.__init__ rb bm kwargs
       (Construction.store_of (Construction.__init__ rb bm kwargs h)))
  = inl (Construction.KeyError "type").
Proof.
  intros Hret Hsome.
  pose proof (init_runs rb bm kwargs h) as Hrun. rewrite Hret in Hrun.
  inversion Hrun as [| | | |x1 h1 t1 x2 h2 t2 x3 h3 t3 x4 h4 t4 H1 H2 H3 H4 Hbm];
    subst.
  pose proof (stage_returns _ _ _ _ _ _ _ _ _ H1) as R1.
  pose proof (stage_returns _ _ _ _ _ _ _ _ _ H2) as R2.
  pose proof (stage_returns _ _ _ _ _ _ _ _ _ H3) as R3.
  pose proof (stage_returns _ _ _ _ _ _ _ _ _ H4) as R4.
  rewrite !lookup_delete_ne in R2 by done.
  rewrite !lookup_delete_ne in R3 by done.
  rewrite !lookup_delete_ne in R4 by done.
  pose proof (λ l, stage_keeps_consumed _ _ _ _ _ _ _ _ _ l H2) as M2.
  pose proof (λ l, stage_keeps_consumed _ _ _ _ _ _ _ _ _ l H3) as M3.
  pose proof (λ l, stage_keeps_consumed _ _ _ _ _ _ _ _ _ l H4) as M4.
  apply init_on_consumed; [| | | | | |done].
  - intros key l Hkey Hl. unfold Construction.strategy_keys in Hkey.
    split_trace; subst key.
    + destruct R1 as [[? _]|(l1 & ? & ?)]; [congruence|].
      simplify_eq. by apply M4, M3, M2.
    + destruct R2 as [[? _]|(l2 & ? & ?)]; [congruence|].
      simplify_eq. by apply M4, M3.
    + destruct R3 as [[? _]|(l3 & ? & ?)]; [congruence|].
      simplify_eq. by apply M4.
    + destruct R4 as [[? _]|(l4 & ? & ?)]; [congruence|].
      by simplify_eq.
  - intros key v Hkey Hv. unfold Construction.strategy_keys in Hkey.
    split_trace; subst key.
    + destruct R1 as [[? _]|(l1 & ? & ?)]; congruence.
    + destruct R2 as [[? _]|(l2 & ? & ?)]; congruence.
    + destruct R3 as [[? _]|(l3 & ? & ?)]; congruence.
    + destruct R4 as [[? _]|(l4 & ? & ?)]; congruence.
  - intros Hnone. destruct R1 as [(_ & _ & Hb)|(l1 & ? & ?)]; [|congruence].
    unfold Construction.lift_build in Hb.
    match type of Hb with
    | context [rb ?reg ?ty ?cfg] => destruct (rb reg ty cfg)
    end; [discriminate|by eexists].
  - intros Hnone. destruct R2 as [(_ & _ & Hb)|(l1 & ? & ?)]; [|congruence].
    unfold Construction.lift_build in Hb.
    match type of Hb with
    | context [rb ?reg ?ty ?cfg] => destruct (rb reg ty cfg)
    end; [discriminate|by eexists].
  - intros Hnone. destruct R3 as [(_ & _ & Hb)|(l1 & ? & ?)]; [|congruence].
    unfold Construction.lift_build in Hb.
    match type of Hb with
    | context [rb ?reg ?ty ?cfg] => destruct (rb reg ty cfg)
    end; [discriminate|by eexists].
  - intros Hnone. destruct R4 as [(_ & _ & Hb)|(l1 & ? & ?)]; [|congruence].
    unfold Construction.lift_build in Hb.
    match type of Hb with
    | context [rb ?reg ?ty ?cfg] => destruct (rb reg ty cfg)
    end; [discriminate|by eexists].
Qed.

Lemma init_consumes_configs_witness :
  ∃ self,
    Construction.result_of
      (Construction.__init__ Demo3.registry_build Demo3.BaseModel_init
                             Demo3.kwargs Demo3.store) = inr self ∧
    (∃ key, key ∈ Construction.strategy_keys ∧ is_Some (Demo3.kwargs !! key)) ∧
    Construction.result_of
      (Construction.__init__ Demo3.registry_build Demo3.BaseModel_init
         Demo3.kwargs
         (Construction.store_of
            (Construction.__init__ Demo3.registry_build Demo3.BaseModel_init
                                   Demo3.kwargs Demo3.store)))
    = inl (Construction.KeyError "type").
Proof.
  eexists.
  assert (∃ key, key ∈ Construction.strategy_keys ∧
                 is_Some (Demo3.kwargs !! key)) as Hsome.
  { exists "decision_maker". split; [repeat constructor|by eexists]. }
  assert (∀ x, x = Construction.result_of
                     (Construction.__init__ Demo3.registry_build
                        Demo3.BaseModel_init Demo3.kwargs Demo3.store) →
               Construction.result_of
                 (Construction.__init__ Demo3.registry_build
                    Demo3.BaseModel_init Demo3.kwargs Demo3.store) = x)
    as Hx by done.
  split; [apply Hx; vm_compute; reflexivity|].
  split; [exact Hsome|].
  eapply (init_consumes_configs Demo3.registry_build Demo3.BaseModel_init
            Demo3.kwargs Demo3.store); [|exact Hsome].
  apply Hx. vm_compute. reflexivity.
Defined.
